(** * Salary management system: the income-tax estimate of [SalaryApp]

    A shallow embedding of the tax computation of [src/iwp.py]
    ([SalaryApp._compute_tax_from_slabs], lines 513-527, and
    [SalaryApp._calculate_tax], lines 529-580, with the tables that
    [SalaryApp.__init__] installs, lines 134-151).

    Python computes on [float]s.  The program is written once, over an
    interface [PyFloat] of the float operations it uses, and run on two
    carriers:

    - [binary64]: Rocq's primitive IEEE 754 binary64 floats, which are
      Python's floats bit for bit, rounding included;
    - [exact_num]: rationals extended with the IEEE special values
      ([+inf], [-inf], [nan]), where every operation on finite numbers
      is exact.  This is the program read as arithmetic on amounts of
      money; the special values behave as they do in IEEE 754.

    Statements that only depend on how floats compare to zero are proved
    for every carrier that satisfies [PyFloatLaws], binary64 included.
    Statements about sums of money (monotonicity, values at the bracket
    boundaries) are proved on [exact_num]; the concrete scenarios are also
    evaluated on [binary64].

    The integers the program writes ([0], [12], [300000], ...) are all
    below 2^53: in arithmetic and comparisons with floats they stand for
    the floats they convert to, exactly.  So [lit] serves for both kinds
    of literal, and [lit 0] and [lit 0.0] are the same number
    ([lit_float_zero]). *)

From Stdlib Require Import List String Bool ZArith QArith Qcanon Lqa Floats.
From Stdlib Require Import Permutation Sorted Lia.
Import ListNotations.

(** ** The float operations the program uses *)

Declare Scope py_scope.
Delimit Scope py_scope with py.

Class PyFloat (F : Type) : Type := {
  lit : Q -> F;            (* a numeric literal: [0.05], [300000], [12.0] *)
  inf : F;                 (* [float('inf')] *)
  fadd : F -> F -> F;      (* [x + y] *)
  fsub : F -> F -> F;      (* [x - y] *)
  fmul : F -> F -> F;      (* [x * y] *)
  fdiv : F -> F -> F;      (* [x / y]; the only divisor in the program is [12.0] *)
  flt : F -> F -> bool;    (* [x < y] *)
  fle : F -> F -> bool     (* [x <= y] *)
}.

Arguments lit {F _} q%_Q.

Infix "+" := fadd : py_scope.
Infix "-" := fsub : py_scope.
Infix "*" := fmul : py_scope.
Infix "/" := fdiv : py_scope.
Infix "<?" := flt (at level 70, no associativity) : py_scope.
Infix "<=?" := fle (at level 70, no associativity) : py_scope.
Notation "x >? y" := (flt y x) (at level 70, no associativity, only parsing) : py_scope.

(** ** The program *)

Section Program.

Context {F : Type} `{PyFloat F}.

Local Open Scope py_scope.

(** Python's builtins [max(a, b)] and [min(a, b)] on two arguments: the
    first argument is kept unless the second is strictly greater ([b > a])
    or smaller ([b < a]).  With a [nan] the comparison is false and the
    first argument is kept. *)
Definition py_max (a b : F) : F := if b >? a then b else a.
Definition py_min (a b : F) : F := if b <? a then b else a.

(** The body of the [for upper, rate in slabs] loop of
    [_compute_tax_from_slabs], on the slabs still to visit and the loop's
    three variables.  [continue] is the first recursive call, [break] the
    return of [tax] before the list is exhausted. *)
Fixpoint slab_loop (slabs : list (F * F)) (tax lower remaining : F) : F :=
  match slabs with
  | [] => tax
  | (upper, rate) :: slabs' =>
      let slab_amount := py_max (lit 0.0) (py_min (upper - lower) remaining) in
      if slab_amount <=? lit 0 then
        slab_loop slabs' tax upper remaining
      else
        let tax := tax + slab_amount * rate in
        let remaining := remaining - slab_amount in
        let lower := upper in
        if remaining <=? lit 0 then tax
        else slab_loop slabs' tax lower remaining
  end.

Definition _compute_tax_from_slabs (taxable_income : F) (slabs : list (F * F)) : F :=
  slab_loop slabs (lit 0.0) (lit 0.0) taxable_income.

(** The same loop without its [break], as the specification describes it:
    "continuing the loop with remaining = 0".  Only the test
    [if remaining <= 0: break] is gone. *)
Fixpoint slab_loop_no_break (slabs : list (F * F)) (tax lower remaining : F) : F :=
  match slabs with
  | [] => tax
  | (upper, rate) :: slabs' =>
      let slab_amount := py_max (lit 0.0) (py_min (upper - lower) remaining) in
      if slab_amount <=? lit 0 then
        slab_loop_no_break slabs' tax upper remaining
      else
        let tax := tax + slab_amount * rate in
        let remaining := remaining - slab_amount in
        let lower := upper in
        slab_loop_no_break slabs' tax lower remaining
  end.

Definition compute_tax_no_break (taxable_income : F) (slabs : list (F * F)) : F :=
  slab_loop_no_break slabs (lit 0.0) (lit 0.0) taxable_income.

(** The specification's "fully-filled contribution" of a run of brackets
    that starts at [lower]: the sum of [(upper_j - lower_j) * rate_j]. *)
Fixpoint filled_sum (lower : F) (slabs : list (F * F)) : F :=
  match slabs with
  | [] => lit 0
  | (upper, rate) :: rest => (upper - lower) * rate + filled_sum upper rest
  end.

(** The attributes of a [SalaryApp] that [_calculate_tax] reads.  A
    [tk.StringVar] of the form holds text; what matters to the computation
    is the float that [float(var.get())] parses it to, [None] when that
    raises. *)
Record SalaryApp : Type := {
  basic_var : option F;
  hra_var : option F;
  other_allow_var : option F;
  other_income_var : option F;
  std_ded_var : option F;
  sec80c_var : option F;
  sec80d_var : option F;
  regime_var : string;
  NEW_REGIME_SLABS : list (F * F);
  OLD_REGIME_SLABS : list (F * F);
  OLD_REBATE_LIMIT : F;
  NEW_REBATE_LIMIT : F;
  CESS_RATE : F
}.

(** [SalaryApp.__init__]: the form's defaults and the tax tables. *)
Definition __init__ : SalaryApp := {|
  basic_var := Some (lit 0);
  hra_var := Some (lit 0);
  other_allow_var := Some (lit 0);
  other_income_var := Some (lit 0);
  std_ded_var := Some (lit 50000);
  sec80c_var := Some (lit 0);
  sec80d_var := Some (lit 0);
  regime_var := "new";
  NEW_REGIME_SLABS :=
    [ (lit 300000, lit 0.0);
      (lit 600000, lit 0.05);
      (lit 900000, lit 0.10);
      (lit 1200000, lit 0.15);
      (lit 1500000, lit 0.20);
      (inf, lit 0.30) ];
  OLD_REGIME_SLABS :=
    [ (lit 250000, lit 0.0);
      (lit 500000, lit 0.05);
      (lit 1000000, lit 0.20);
      (inf, lit 0.30) ];
  OLD_REBATE_LIMIT := lit 500000;
  NEW_REBATE_LIMIT := lit 700000;
  CESS_RATE := lit 0.04
|}.

(** The user fills the form: the seven entries and the regime radio button. *)
Definition fill_form (self : SalaryApp)
    (basic hra other_allow other_income std_ded sec80c sec80d : option F)
    (regime : string) : SalaryApp := {|
  basic_var := basic;
  hra_var := hra;
  other_allow_var := other_allow;
  other_income_var := other_income;
  std_ded_var := std_ded;
  sec80c_var := sec80c;
  sec80d_var := sec80d;
  regime_var := regime;
  NEW_REGIME_SLABS := NEW_REGIME_SLABS self;
  OLD_REGIME_SLABS := OLD_REGIME_SLABS self;
  OLD_REBATE_LIMIT := OLD_REBATE_LIMIT self;
  NEW_REBATE_LIMIT := NEW_REBATE_LIMIT self;
  CESS_RATE := CESS_RATE self
|}.

(** The nested [to_float] of [_calculate_tax]: [0.0] when parsing raises. *)
Definition to_float (var : option F) : F :=
  match var with
  | Some x => x
  | None => lit 0.0
  end.

(** The [if regime == "new"] of [_calculate_tax]: the slabs and the rebate
    limit of the chosen regime. *)
Definition choose_regime (self : SalaryApp) (regime : string) : list (F * F) * F :=
  if String.eqb regime "new" then (NEW_REGIME_SLABS self, NEW_REBATE_LIMIT self)
  else (OLD_REGIME_SLABS self, OLD_REBATE_LIMIT self).

(** The nine amounts that [_calculate_tax] displays, in the order of its
    [rows]. *)
Record Breakdown : Type := {
  gross_salary : F;
  other_income : F;
  gross_total_income : F;
  total_deductions : F;
  taxable_income : F;
  tax_before_cess : F;
  cess : F;
  total_tax : F;
  monthly_tds : F
}.

(** [SalaryApp._calculate_tax], state passing: the amounts it shows and the
    object it leaves behind.  No attribute is assigned; the local [rebate]
    is never read and the result window is not modelled.  No float
    operation here raises, so the [except] branch is never taken. *)
Definition _calculate_tax (self : SalaryApp) : Breakdown * SalaryApp :=
  let basic_month := to_float (basic_var self) in
  let hra_month := to_float (hra_var self) in
  let other_allow_month := to_float (other_allow_var self) in
  let other_income := to_float (other_income_var self) in
  let basic_annual := basic_month * lit 12 in
  let hra_annual := hra_month * lit 12 in
  let other_allow_annual := other_allow_month * lit 12 in
  let gross_salary := basic_annual + hra_annual + other_allow_annual in
  let gross_total_income := gross_salary + other_income in
  let std_ded := to_float (std_ded_var self) in
  let sec80c := to_float (sec80c_var self) in
  let sec80d := to_float (sec80d_var self) in
  let total_deductions := std_ded + sec80c + sec80d in
  let taxable_income := py_max (lit 0.0) (gross_total_income - total_deductions) in
  let regime := regime_var self in
  let '(slabs, rebate_limit) := choose_regime self regime in
  let tax_before_cess := _compute_tax_from_slabs taxable_income slabs in
  let tax_before_cess :=
    if taxable_income <=? rebate_limit then lit 0.0 else tax_before_cess in
  let cess := tax_before_cess * CESS_RATE self in
  let total_tax := tax_before_cess + cess in
  let monthly_tds := total_tax / lit 12.0 in
  ({| gross_salary := gross_salary;
      other_income := other_income;
      gross_total_income := gross_total_income;
      total_deductions := total_deductions;
      taxable_income := taxable_income;
      tax_before_cess := tax_before_cess;
      cess := cess;
      total_tax := total_tax;
      monthly_tds := monthly_tds |},
   self).

End Program.

Arguments SalaryApp F : clear implicits.
Arguments Breakdown F : clear implicits.

(** ** Carrier 1: IEEE 754 binary64, Python's [float] *)

(** An integer as a float (exact below 2^53, as every integer the program
    writes). *)
Definition float_of_Z (z : Z) : float :=
  match z with
  | Z0 => PrimFloat.zero
  | Zpos _ => PrimFloat.of_uint63 (Uint63.of_Z z)
  | Zneg p => PrimFloat.opp (PrimFloat.of_uint63 (Uint63.of_Z (Zpos p)))
  end.

(** A literal [n/d] is the float nearest to it: the correctly rounded
    quotient of the two exactly represented integers. *)
#[export] Instance binary64 : PyFloat float := {|
  lit q := PrimFloat.div (float_of_Z (Qnum q)) (float_of_Z (Zpos (Qden q)));
  inf := PrimFloat.infinity;
  fadd := PrimFloat.add;
  fsub := PrimFloat.sub;
  fmul := PrimFloat.mul;
  fdiv := PrimFloat.div;
  flt := PrimFloat.ltb;
  fle := PrimFloat.leb
|}.

(** ** Carrier 2: exact arithmetic with the IEEE special values *)

Inductive xnum : Type :=
  | XNan
  | XNegInf
  | XPosInf
  | Fin (q : Qc).

Module X.

Definition opp (x : xnum) : xnum :=
  match x with
  | XNan => XNan
  | XNegInf => XPosInf
  | XPosInf => XNegInf
  | Fin q => Fin (- q)%Qc
  end.

Definition add (x y : xnum) : xnum :=
  match x, y with
  | XNan, _ | _, XNan => XNan
  | XPosInf, XNegInf | XNegInf, XPosInf => XNan
  | XPosInf, _ | _, XPosInf => XPosInf
  | XNegInf, _ | _, XNegInf => XNegInf
  | Fin a, Fin b => Fin (a + b)%Qc
  end.

Definition sub (x y : xnum) : xnum := add x (opp y).

(** The infinity of the given sign. *)
Definition signed_inf (neg : bool) : xnum := if neg then XNegInf else XPosInf.

Definition is_neg (q : Qc) : bool :=
  match (q ?= 0)%Qc with Lt => true | _ => false end.

Definition is_zero (q : Qc) : bool :=
  match (q ?= 0)%Qc with Eq => true | _ => false end.

Definition mul (x y : xnum) : xnum :=
  match x, y with
  | XNan, _ | _, XNan => XNan
  | XPosInf, XPosInf | XNegInf, XNegInf => XPosInf
  | XPosInf, XNegInf | XNegInf, XPosInf => XNegInf
  | XPosInf, Fin q | Fin q, XPosInf =>
      if is_zero q then XNan else signed_inf (is_neg q)
  | XNegInf, Fin q | Fin q, XNegInf =>
      if is_zero q then XNan else signed_inf (negb (is_neg q))
  | Fin a, Fin b => Fin (a * b)%Qc
  end.

(** Division by zero follows IEEE 754 for a positive zero (Python raises
    instead; the program only divides by [12.0]). *)
Definition div (x y : xnum) : xnum :=
  match x, y with
  | XNan, _ | _, XNan => XNan
  | (XPosInf | XNegInf), (XPosInf | XNegInf) => XNan
  | XPosInf, Fin q => signed_inf (is_neg q)
  | XNegInf, Fin q => signed_inf (negb (is_neg q))
  | Fin _, (XPosInf | XNegInf) => Fin 0%Qc
  | Fin a, Fin b =>
      if is_zero b then
        if is_zero a then XNan else signed_inf (is_neg a)
      else Fin (a / b)%Qc
  end.

Definition ltb (x y : xnum) : bool :=
  match x, y with
  | XNan, _ | _, XNan => false
  | _, XNegInf => false
  | XNegInf, _ => true
  | XPosInf, _ => false
  | _, XPosInf => true
  | Fin a, Fin b => match (a ?= b)%Qc with Lt => true | _ => false end
  end.

Definition leb (x y : xnum) : bool :=
  match x, y with
  | XNan, _ | _, XNan => false
  | XNegInf, _ => true
  | _, XPosInf => true
  | _, XNegInf => false
  | XPosInf, _ => false
  | Fin a, Fin b => match (a ?= b)%Qc with Gt => false | _ => true end
  end.

End X.

#[export] Instance exact_num : PyFloat xnum := {|
  lit q := Fin (Q2Qc q);
  inf := XPosInf;
  fadd := X.add;
  fsub := X.sub;
  fmul := X.mul;
  fdiv := X.div;
  flt := X.ltb;
  fle := X.leb
|}.

(** ** Schedules and the bracket sum, on the exact carrier *)

Definition Qcmin (a b : Qc) : Qc := if X.ltb (Fin b) (Fin a) then b else a.
Definition Qcmax (a b : Qc) : Qc := if X.ltb (Fin a) (Fin b) then b else a.

(** A rate is a finite, non-negative number. *)
Definition rate_ok (rate : xnum) : bool :=
  match rate with
  | Fin r => X.leb (Fin 0%Qc) (Fin r)
  | _ => false
  end.

(** The schedules of the specification (section 3): upper bounds strictly
    increasing from [lower], all finite but the last, which is [+inf]. *)
Fixpoint valid_from (lower : Qc) (slabs : list (xnum * xnum)) : bool :=
  match slabs with
  | [] => false
  | (upper, rate) :: rest =>
      match rest with
      | [] =>
          match upper with
          | XPosInf => rate_ok rate
          | _ => false
          end
      | _ :: _ =>
          match upper with
          | Fin u => X.ltb (Fin lower) (Fin u) && rate_ok rate && valid_from u rest
          | _ => false
          end
      end
  end.

Definition valid_schedule (slabs : list (xnum * xnum)) : bool :=
  valid_from 0%Qc slabs.

(** The tax on an income [x] as a sum over the brackets above [lower]: each
    bracket charges its rate on the part of [[0, x]] that lies in it. *)
Fixpoint bracket_tax (lower : Qc) (slabs : list (xnum * xnum)) (x : Qc) : Qc :=
  match slabs with
  | [] => 0%Qc
  | (upper, rate) :: rest =>
      match upper, rate with
      | Fin u, Fin r =>
          (Qcmax 0 (Qcmin u x - lower) * r + bracket_tax u rest x)%Qc
      | XPosInf, Fin r => (Qcmax 0 (x - lower) * r)%Qc
      | _, _ => 0%Qc
      end
  end.

(** Every rate of the schedule is at most [top]. *)
Definition rates_at_most (top : Qc) (slabs : list (xnum * xnum)) : bool :=
  forallb (fun slab : xnum * xnum => X.leb (snd slab) (Fin top)) slabs.

(** ** The forms used in the statements *)

(** Scenario 1 of the specification: 100000 a month, the standard
    deduction only, new regime. *)
Definition scenario_1 {F : Type} `{PyFloat F} : SalaryApp F :=
  fill_form __init__
    (Some (lit 100000)) (Some (lit 0)) (Some (lit 0)) (Some (lit 0))
    (Some (lit 50000)) (Some (lit 0)) (Some (lit 0)) "new".

(** A form whose taxable income is [other_income - 50000]: no salary, the
    standard deduction only, new regime. *)
Definition other_income_only {F : Type} `{PyFloat F} (other_income : F) : SalaryApp F :=
  fill_form __init__
    (Some (lit 0)) (Some (lit 0)) (Some (lit 0)) (Some other_income)
    (Some (lit 50000)) (Some (lit 0)) (Some (lit 0)) "new".

(** ** The employee records: the rest of [SalaryApp]

    [SalaryApp] keeps the employees in a dict from their id to
    [{'name': ..., 'gross_salary': ...}], mirrors it in [employees.csv] and
    shows it in a [ttk.Treeview].  Of the widgets, the model keeps what the
    handlers read back: the rows of the tree and which of them are
    selected.  Message boxes are the handlers' visible outcome. *)

(** A Python [str], as its code points. *)
Definition pystr : Type := list N.

(** The ASCII text of a Rocq string, as a Python [str]. *)
Definition pystr_of (s : string) : pystr :=
  List.map Ascii.N_of_ascii (list_ascii_of_string s).

(** The characters [str.strip()] removes: Python's whitespace, which is
    U+0009-U+000D, U+001C-U+0020, U+0085, U+00A0, U+1680, U+2000-U+200A,
    U+2028, U+2029, U+202F, U+205F and U+3000. *)
Definition is_space (c : N) : bool :=
  ((9 <=? c) && (c <=? 13) || (28 <=? c) && (c <=? 32)
   || (c =? 133) || (c =? 160) || (c =? 5760)
   || (8192 <=? c) && (c <=? 8202)
   || (c =? 8232) || (c =? 8233) || (c =? 8239) || (c =? 8287)
   || (c =? 12288))%N.

Fixpoint lstrip (s : pystr) : pystr :=
  match s with
  | [] => []
  | c :: s' => if is_space c then lstrip s' else s
  end.

Definition rstrip (s : pystr) : pystr := rev (lstrip (rev s)).

(** [s.strip()]: [s] without its leading and trailing whitespace. *)
Definition strip (s : pystr) : pystr := rstrip (lstrip s).

(** A Python dict with integer keys: its items in insertion order, each key
    once.  [d[k] = v] replaces the value where the key stands or appends a
    new item; [del d[k]] removes the item. *)
Section Dict.

Context {V : Type}.

Definition dict : Type := list (Z * V).

Fixpoint dict_get (d : dict) (k : Z) : option V :=
  match d with
  | [] => None
  | (k', v) :: d' => if (k' =? k)%Z then Some v else dict_get d' k
  end.

Fixpoint dict_set (d : dict) (k : Z) (v : V) : dict :=
  match d with
  | [] => [(k, v)]
  | (k', v') :: d' =>
      if (k' =? k)%Z then (k, v) :: d' else (k', v') :: dict_set d' k v
  end.

Definition dict_del (d : dict) (k : Z) : dict :=
  filter (fun item => negb (fst item =? k)%Z) d.

Definition dict_keys (d : dict) : list Z := List.map fst d.

End Dict.

Arguments dict V : clear implicits.

(** [max(keys)] on a non-empty collection whose first key is [k]. *)
Definition max_key (k : Z) (keys : list Z) : Z := fold_left Z.max keys k.

(** [sorted(keys)]. *)
Fixpoint insert_sorted (k : Z) (keys : list Z) : list Z :=
  match keys with
  | [] => [k]
  | k' :: keys' =>
      if (k <=? k')%Z then k :: keys else k' :: insert_sorted k keys'
  end.

Definition sorted (keys : list Z) : list Z := fold_right insert_sorted [] keys.

(** An employee: [{'name': name, 'gross_salary': gross_salary}]. *)
Module Emp.
Record t (F : Type) : Type := { name : pystr; gross_salary : F }.
Arguments Build_t {F} name gross_salary.
Arguments name {F} t.
Arguments gross_salary {F} t.
End Emp.

(** A data row of [employees.csv] as [csv.DictReader] hands it to
    [_load_employees]: each cell through the conversion the loader applies
    to it, [None] when the column is missing or [int()] / [float()] raises.
    The text of the file is not modelled.  Within the limits that
    [reads_back] lists, [csv] hands back a name as it was written, and
    [str()] writes an [int] and a [float] so that [int()] and [float()]
    read them back as themselves. *)
Record csv_row (F : Type) : Type := {
  row_id : option Z;
  row_name : option pystr;
  row_gross_salary : option F
}.

Arguments Build_csv_row {F} row_id row_name row_gross_salary.
Arguments row_id {F} c.
Arguments row_name {F} c.
Arguments row_gross_salary {F} c.

(** What a handler shows or raises.  An info box carries the id it is
    about; its text is not modelled.  [showerror_caught title text] is the
    box that the [except Exception as e] of [_load_employees] and of
    [_save_employees] shows with [f"{text}:\n{e}"]: [text], a colon, a line
    break and the message of the exception, which is not modelled. *)
Inductive Outcome : Type :=
  | showerror (title text : string)
  | showerror_caught (title text : string)
  | showinfo (title : string) (emp_id : Z)
  | KeyError (emp_id : Z)
  | silent.

(** The module's [DATA_FILE]. *)
Definition DATA_FILE : string := "employees.csv".

(** The amounts on a payslip, named as [_generate_payslip] names them. *)
Module Payslip.
Record t (F : Type) : Type := {
  emp_id : Z;
  name : pystr;
  gross_salary : F;
  tax : F;
  ni : F;
  pension : F;
  total_deductions : F;
  net_salary : F
}.
Arguments Build_t {F} emp_id name gross_salary tax ni pension total_deductions net_salary.
Arguments emp_id {F} t.
Arguments name {F} t.
Arguments gross_salary {F} t.
Arguments tax {F} t.
Arguments ni {F} t.
Arguments pension {F} t.
Arguments total_deductions {F} t.
Arguments net_salary {F} t.
End Payslip.

Section Records.

Context {F : Type} `{PyFloat F}.

Local Open Scope py_scope.

(** The module's payslip rates. *)
Definition TAX_RATE : F := lit 0.20.
Definition NATIONAL_INSURANCE_RATE : F := lit 0.12.
Definition PENSION_RATE : F := lit 0.05.

(** The whole object: the form modelled above ([form]), the name entry, the
    employees, the rows of the tree with the ids of the selected rows (in
    the order [tree.selection()] lists them), and [employees.csv] ([None]
    when the file does not exist). *)
Record App : Type := {
  form : SalaryApp F;
  name_var : pystr;
  employees : dict (Emp.t F);
  tree : list (Z * pystr * F);
  selection : list Z;
  data_file : option (list (csv_row F))
}.

(** [_load_employees] on the rows of the file: an exception ends the loop,
    the error is shown with the exception's message, and the employees
    read so far are returned. *)
Fixpoint load_rows (rows : list (csv_row F)) (employees : dict (Emp.t F))
    : dict (Emp.t F) * Outcome :=
  match rows with
  | [] => (employees, silent)
  | row :: rows' =>
      match row_name row, row_gross_salary row, row_id row with
      | Some name, Some gross_salary, Some emp_id =>
          load_rows rows' (dict_set employees emp_id (Emp.Build_t name gross_salary))
      | _, _, _ =>
          (employees, showerror_caught "Load Error" ("Failed to load data from " ++ DATA_FILE))
      end
  end.

Definition _load_employees (file : option (list (csv_row F)))
    : dict (Emp.t F) * Outcome :=
  match file with
  | None => ([], silent)
  | Some rows => load_rows rows []
  end.

(** What [encoding='utf-8'] can write: every code point but the surrogates
    U+D800-U+DFFF, on which the write raises [UnicodeEncodeError]. *)
Definition utf8_encodable (name : pystr) : bool :=
  forallb (fun c => (c <? 55296) || (57343 <? c))%N name.

(** The loop of [_save_employees]: one row per item, in the order of the
    dict.  A row that cannot be encoded raises: the rows before it stay in
    the file, the rows after it are never written, and the handler's
    [except] shows the error. *)
Fixpoint write_rows (items : dict (Emp.t F)) : list (csv_row F) * Outcome :=
  match items with
  | [] => ([], silent)
  | (emp_id, data) :: items' =>
      if utf8_encodable (Emp.name data) then
        let written := write_rows items' in
        (Build_csv_row (Some emp_id) (Some (Emp.name data))
           (Some (Emp.gross_salary data)) :: fst written,
         snd written)
      else ([], showerror_caught "Save Error" ("Failed to save data to " ++ DATA_FILE))
  end.

(** [_save_employees]: the file is opened for writing, which empties it,
    and gets the header and the rows of [write_rows].  The file system is
    taken to accept what is written. *)
Definition _save_employees (self : App) : App := {|
  form := form self;
  name_var := name_var self;
  employees := employees self;
  tree := tree self;
  selection := selection self;
  data_file := Some (fst (write_rows (employees self)))
|}.

(** The box [_save_employees] shows, if any.  The handlers that save go on
    after it: their own box follows. *)
Definition save_error (self : App) : Outcome := snd (write_rows (employees self)).

(** The items whose rows [_save_employees] gets into the file: those before
    the first name that cannot be encoded. *)
Fixpoint saved_items (items : dict (Emp.t F)) : dict (Emp.t F) :=
  match items with
  | [] => []
  | (emp_id, data) :: items' =>
      if utf8_encodable (Emp.name data) then (emp_id, data) :: saved_items items' else []
  end.

(** An item that [csv], [str()] and [int()] hand back as it was written,
    whatever the version of Python 3: the csv reader refuses a field of
    more than 131072 characters and, before 3.11, a NUL; the newer [str()]
    and [int()] refuse an integer of more than 4300 digits. *)
Definition reads_back (item : Z * Emp.t F) : bool :=
  (Z.abs (fst item) <? 10 ^ 4300)%Z
  && (N.of_nat (List.length (Emp.name (snd item))) <=? 131072)%N
  && forallb (fun c => negb (c =? 0)%N) (Emp.name (snd item)).

Definition _get_next_id (self : App) : Z :=
  match dict_keys (employees self) with
  | [] => 1
  | k :: keys => max_key k keys + 1
  end.

(** [_populate_treeview]: every row is deleted, which empties the
    selection, and one row per employee is inserted in the order of the
    ids.  The salary column holds the salary; its rendering with two
    decimals is not modelled. *)
Definition _populate_treeview (self : App) : App := {|
  form := form self;
  name_var := name_var self;
  employees := employees self;
  tree :=
    flat_map
      (fun emp_id =>
         match dict_get (employees self) emp_id with
         | Some data => [(emp_id, Emp.name data, Emp.gross_salary data)]
         | None => []
         end)
      (sorted (dict_keys (employees self)));
  selection := [];
  data_file := data_file self
|}.

(** [_clear_form]: the defaults in every entry, and the first selected row
    leaves the selection. *)
Definition _clear_form (self : App) : App := {|
  form :=
    fill_form (form self)
      (Some (lit 0)) (Some (lit 0)) (Some (lit 0)) (Some (lit 0))
      (Some (lit 50000)) (Some (lit 0)) (Some (lit 0)) "new";
  name_var := [];
  employees := employees self;
  tree := tree self;
  selection := tl (selection self);
  data_file := data_file self
|}.

(** [self.employees[emp_id] = {'name': name, 'gross_salary': gross_annual}]. *)
Definition store_employee (self : App) (emp_id : Z) (name : pystr) (gross_annual : F)
    : App := {|
  form := form self;
  name_var := name_var self;
  employees := dict_set (employees self) emp_id (Emp.Build_t name gross_annual);
  tree := tree self;
  selection := selection self;
  data_file := data_file self
|}.

(** The test [basic_month <= 0 and hra_month <= 0 and other_allow_month <= 0]
    of both [_add_employee] and [_update_employee]. *)
Definition no_salary_component (basic_month hra_month other_allow_month : F) : bool :=
  (basic_month <=? lit 0) && (hra_month <=? lit 0) && (other_allow_month <=? lit 0).

Definition _add_employee (self : App) : App * Outcome :=
  let name := strip (name_var self) in
  let basic_month := to_float (basic_var (form self)) in
  let hra_month := to_float (hra_var (form self)) in
  let other_allow_month := to_float (other_allow_var (form self)) in
  match name with
  | [] => (self, showerror "Input Error" "Employee name is required.")
  | _ :: _ =>
      if no_salary_component basic_month hra_month other_allow_month then
        (self, showerror "Input Error"
                 "Enter at least one salary component (Basic / HRA / Other).")
      else
        let gross_annual := (basic_month + hra_month + other_allow_month) * lit 12.0 in
        let emp_id := _get_next_id self in
        let self := store_employee self emp_id name gross_annual in
        let self := _save_employees self in
        let self := _populate_treeview self in
        let self := _clear_form self in
        (self, showinfo "Success" emp_id)
  end.

Definition _update_employee (self : App) : App * Outcome :=
  match selection self with
  | [] => (self, showerror "Selection Error"
                   "Please select an employee from the list to update.")
  | emp_id :: _ =>
      let name := strip (name_var self) in
      let basic_month := to_float (basic_var (form self)) in
      let hra_month := to_float (hra_var (form self)) in
      let other_allow_month := to_float (other_allow_var (form self)) in
      if match name with [] => true | _ :: _ => false end
         || no_salary_component basic_month hra_month other_allow_month then
        (self, showerror "Input Error"
                 "Both name and at least one salary component are required.")
      else
        let gross_annual := (basic_month + hra_month + other_allow_month) * lit 12.0 in
        let self := store_employee self emp_id name gross_annual in
        let self := _save_employees self in
        let self := _populate_treeview self in
        let self := _clear_form self in
        (self, showinfo "Success" emp_id)
  end.

(** [_delete_employee]; [confirmed] is the answer to [askyesno].  A missing
    key raises before anything is changed. *)
Definition _delete_employee (self : App) (confirmed : bool) : App * Outcome :=
  match selection self with
  | [] => (self, showerror "Selection Error" "Please select an employee to delete.")
  | emp_id :: _ =>
      match dict_get (employees self) emp_id with
      | None => (self, KeyError emp_id)
      | Some _ =>
          if confirmed then
            let self := {|
              form := form self;
              name_var := name_var self;
              employees := dict_del (employees self) emp_id;
              tree := tree self;
              selection := selection self;
              data_file := data_file self |} in
            let self := _save_employees self in
            let self := _populate_treeview self in
            let self := _clear_form self in
            (self, showinfo "Success" emp_id)
          else (self, silent)
      end
  end.

(** [_generate_payslip]: the amounts the payslip window shows.  A missing
    key is caught by the handler's [except] and shown as an error. *)
Definition _generate_payslip (self : App) : option (Payslip.t F) * Outcome :=
  match selection self with
  | [] => (None, showerror "Selection Error"
                   "Please select an employee to generate a payslip.")
  | emp_id :: _ =>
      match dict_get (employees self) emp_id with
      | None => (None, showerror "Error" "An unexpected error occurred")
      | Some employee =>
          let gross_salary := Emp.gross_salary employee in
          let tax := gross_salary * TAX_RATE in
          let ni := gross_salary * NATIONAL_INSURANCE_RATE in
          let pension := gross_salary * PENSION_RATE in
          let total_deductions := tax + ni + pension in
          let net_salary := gross_salary - total_deductions in
          (Some (Payslip.Build_t emp_id (Emp.name employee) gross_salary tax ni
                   pension total_deductions net_salary),
           silent)
      end
  end.

(** The object as [__init__] leaves it: the employees loaded from the
    file and shown in the tree. *)
Definition App_init (file : option (list (csv_row F))) : App :=
  _populate_treeview {|
    form := __init__;
    name_var := [];
    employees := fst (_load_employees file);
    tree := [];
    selection := [];
    data_file := file
  |}.

(** The ids in the first column of the tree. *)
Definition tree_ids (self : App) : list Z :=
  List.map (fun row => fst (fst row)) (tree self).

(** The tree shows the employees as they are now, and the selected rows
    are rows of the tree.  A click can only select rows that are there. *)
Definition tree_current (self : App) : Prop :=
  tree self = tree (_populate_treeview self)
  /\ incl (selection self) (tree_ids self).

(** The user selects rows of the tree. *)
Definition click (self : App) (ids : list Z) : App := {|
  form := form self;
  name_var := name_var self;
  employees := employees self;
  tree := tree self;
  selection := ids;
  data_file := data_file self
|}.

(** The user types a name and the three monthly components. *)
Definition type_employee (self : App) (name : pystr)
    (basic hra other_allow : option F) : App := {|
  form :=
    fill_form (form self) basic hra other_allow
      (other_income_var (form self)) (std_ded_var (form self))
      (sec80c_var (form self)) (sec80d_var (form self)) (regime_var (form self));
  name_var := name;
  employees := employees self;
  tree := tree self;
  selection := selection self;
  data_file := data_file self
|}.

(** A file with two employees, and the application started on it. *)
Definition example_rows : list (csv_row F) :=
  [ Build_csv_row (Some 1%Z) (Some (pystr_of "Asha")) (Some (lit 600000));
    Build_csv_row (Some 2%Z) (Some (pystr_of "Ravi")) (Some (lit 1200000)) ].

Definition example_app : App := App_init (Some example_rows).

End Records.

Arguments App F : clear implicits.

(** ** Selecting a row

    [_on_item_select] writes the stored salary, as a monthly basic pay,
    into the basic-pay entry with [f"{basic_month:.2f}"], and the handlers
    read the entry back with [float()].  [two_decimals x] is the number the
    entry then holds, [float(f"{x:.2f}")].  It is a parameter: what is
    proved with it holds whatever the rendering does to the number. *)
Class PyFormat (F : Type) : Type := { two_decimals : F -> F }.

Section Selecting.

Context {F : Type} `{PyFloat F} `{PyFormat F}.

Local Open Scope py_scope.

(** [_on_item_select]: with a row selected whose id is an employee's, the
    name and the salary over twelve go into the form and every other entry
    is reset; otherwise nothing happens. *)
Definition _on_item_select (self : App F) : App F :=
  match selection self with
  | [] => self
  | emp_id :: _ =>
      match dict_get (employees self) emp_id with
      | None => self
      | Some employee_data =>
          let basic_month := Emp.gross_salary employee_data / lit 12.0 in
          {| form :=
               fill_form (form self)
                 (Some (two_decimals basic_month)) (Some (lit 0)) (Some (lit 0))
                 (Some (lit 0)) (Some (lit 50000)) (Some (lit 0)) (Some (lit 0)) "new";
             name_var := Emp.name employee_data;
             employees := employees self;
             tree := tree self;
             selection := selection self;
             data_file := data_file self |}
      end
  end.

End Selecting.

(** ** The application as the user drives it

    What the user can do between two tax estimates: type into the entries,
    click on rows of the list and press one of the six buttons.  [Select]
    is the [<<TreeviewSelect>>] event, which runs [_on_item_select] on the
    rows then selected, whether a click or a handler changed the
    selection.  [Delete] carries the answer to the confirmation box. *)
Inductive Event (F : Type) : Type :=
  | Type_name (name : pystr)
  | Type_form (basic hra other_allow other_income std_ded sec80c sec80d : option F)
      (regime : string)
  | Select (ids : list Z)
  | Add
  | Update
  | Delete (confirmed : bool)
  | Clear
  | Payslip
  | Calculate.

Arguments Type_name {F} name.
Arguments Type_form {F} basic hra other_allow other_income std_ded sec80c sec80d regime.
Arguments Select {F} ids.
Arguments Add {F}.
Arguments Update {F}.
Arguments Delete {F} confirmed.
Arguments Clear {F}.
Arguments Payslip {F}.
Arguments Calculate {F}.

Section Driving.

Context {F : Type} `{PyFloat F} `{PyFormat F}.

(** The object after the handler of one event has run.  A handler that
    raises or shows an error leaves the object as its definition says;
    [_generate_payslip] and [_calculate_tax] open a window. *)
Definition step (self : App F) (event : Event F) : App F :=
  match event with
  | Type_name name =>
      {| form := form self;
         name_var := name;
         employees := employees self;
         tree := tree self;
         selection := selection self;
         data_file := data_file self |}
  | Type_form basic hra other_allow other_income std_ded sec80c sec80d regime =>
      {| form :=
           fill_form (form self) basic hra other_allow other_income std_ded sec80c sec80d
             regime;
         name_var := name_var self;
         employees := employees self;
         tree := tree self;
         selection := selection self;
         data_file := data_file self |}
  | Select ids => _on_item_select (click self ids)
  | Add => fst (_add_employee self)
  | Update => fst (_update_employee self)
  | Delete confirmed => fst (_delete_employee self confirmed)
  | Clear => _clear_form self
  | Payslip => self
  | Calculate =>
      {| form := snd (_calculate_tax (form self));
         name_var := name_var self;
         employees := employees self;
         tree := tree self;
         selection := selection self;
         data_file := data_file self |}
  end.

(** The object after a sequence of events. *)
Definition run (self : App F) (history : list (Event F)) : App F :=
  fold_left step history self.

(** What [__init__] configures and [_calculate_tax] reads: the two tables,
    the two rebate limits and the cess rate. *)
Definition configuration (self : SalaryApp F)
    : list (F * F) * list (F * F) * F * F * F :=
  (NEW_REGIME_SLABS self, OLD_REGIME_SLABS self, OLD_REBATE_LIMIT self,
   NEW_REBATE_LIMIT self, CESS_RATE self).

(** The eight entries [_calculate_tax] reads, as [float()] and [get()] give
    them. *)
Definition entries (self : App F)
    : option F * option F * option F * option F * option F * option F * option F * string :=
  (basic_var (form self), hra_var (form self), other_allow_var (form self),
   other_income_var (form self), std_ded_var (form self), sec80c_var (form self),
   sec80d_var (form self), regime_var (form self)).

(** The breakdown a press on Calculate shows. *)
Definition shown (self : App F) : Breakdown F := fst (_calculate_tax (form self)).

End Driving.

(** What the proofs need from a carrier: how its numbers compare to zero.
    Nothing here speaks of rounding, so binary64 satisfies it. *)
Class PyFloatLaws (F : Type) `{PyFloat F} : Prop := {
  lit_float_zero : lit 0.0 = lit 0;
  fle_zero_zero : fle (lit 0) (lit 0) = true;
  flt_zero_not_le : forall x, flt (lit 0) x = true -> fle x (lit 0) = false;
  flt_zero_le : forall x, flt (lit 0) x = true -> fle (lit 0) x = true;
  flt_neg_le : forall x, flt x (lit 0) = true -> fle x (lit 0) = true;
  fle_zero_not_neg : forall x, fle (lit 0) x = true -> flt x (lit 0) = false;
  fle_zero_lt_trans :
    forall x y, fle x (lit 0) = true -> flt (lit 0) y = true -> flt x y = true
}.

(** ** The laws hold on both carriers *)

Lemma binary64_zero : @lit float binary64 0 = 0%float.
Proof. reflexivity. Qed.

Lemma Prim2SF_zero : Prim2SF 0%float = S754_zero false.
Proof. reflexivity. Qed.

(** A float is positive, non-positive, ... by the shape of its specification. *)
Ltac by_float_shape x :=
  rewrite ?ltb_spec, ?leb_spec, ?Prim2SF_zero in *;
  destruct (Prim2SF x) as [[|]|[|]| |[|] ? ?];
  cbn in *; try reflexivity; try discriminate.

#[export] Instance binary64_laws : PyFloatLaws float.
Proof.
  split; rewrite ?binary64_zero; cbn [flt fle binary64].
  - reflexivity.
  - reflexivity.
  - intros x Hx. by_float_shape x.
  - intros x Hx. by_float_shape x.
  - intros x Hx. by_float_shape x.
  - intros x Hx. by_float_shape x.
  - intros x y Hx Hy. by_float_shape x; by_float_shape y.
Qed.

(** The decimal literals of the program, as binary64 reads them (the
    values of Python's [float.hex]). *)
Lemma binary64_literals :
  @lit float binary64 0.05 = 0x1.999999999999ap-5%float
  /\ @lit float binary64 0.10 = 0x1.999999999999ap-4%float
  /\ @lit float binary64 0.15 = 0x1.3333333333333p-3%float
  /\ @lit float binary64 0.20 = 0x1.999999999999ap-3%float
  /\ @lit float binary64 0.30 = 0x1.3333333333333p-2%float
  /\ @lit float binary64 0.04 = 0x1.47ae147ae147bp-5%float
  /\ @lit float binary64 12.0 = 12%float
  /\ @lit float binary64 0.0 = 0%float.
Proof. repeat split. Qed.

(** Rational arithmetic on canonical fractions, decided by [lra] on their
    underlying fractions. *)
Lemma this_plus (a b : Qc) : (this (a + b)%Qc == this a + this b)%Q.
Proof. exact (Qred_correct _). Qed.

Lemma this_opp (a : Qc) : (this (- a)%Qc == - this a)%Q.
Proof. exact (Qred_correct _). Qed.

Lemma this_minus (a b : Qc) : (this (a - b)%Qc == this a - this b)%Q.
Proof. unfold Qcminus. rewrite this_plus, this_opp. reflexivity. Qed.

Lemma this_mult (a b : Qc) : (this (a * b)%Qc == this a * this b)%Q.
Proof. exact (Qred_correct _). Qed.

Lemma this_Q2Qc (q : Q) : (this (Q2Qc q) == q)%Q.
Proof. exact (Qred_correct _). Qed.

Lemma Qc_eq_this (a b : Qc) : a = b <-> (this a == this b)%Q.
Proof.
  split.
  - intros ->. reflexivity.
  - apply Qc_is_canon.
Qed.

Ltac qc_to_q :=
  unfold Qcle, Qclt in *;
  repeat match goal with
  | H : @eq Qc _ _ |- _ => apply Qc_eq_this in H
  | H : ~ @eq Qc _ _ |- _ => rewrite Qc_eq_this in H
  | |- @eq Qc _ _ => apply Qc_eq_this
  | |- ~ @eq Qc _ _ => rewrite Qc_eq_this
  end;
  rewrite ?this_minus, ?this_plus, ?this_opp, ?this_mult, ?this_Q2Qc in *.

Ltac qc_lra := qc_to_q; lra.
Ltac qc_nra := qc_to_q; nra.
Ltac qc_auto := solve [ qc_lra | ring | qc_nra ].

Lemma ltb_Fin (a b : Qc) : X.ltb (Fin a) (Fin b) = true <-> (a < b)%Qc.
Proof.
  cbn. rewrite Qclt_alt. destruct (a ?= b)%Qc; split; congruence.
Qed.

Lemma leb_Fin (a b : Qc) : X.leb (Fin a) (Fin b) = true <-> (a <= b)%Qc.
Proof.
  cbn. rewrite Qcle_alt. destruct (a ?= b)%Qc; split; congruence.
Qed.

Lemma ltb_Fin_false (a b : Qc) : X.ltb (Fin a) (Fin b) = false <-> (b <= a)%Qc.
Proof.
  rewrite <- not_true_iff_false, ltb_Fin. split.
  - apply Qcnot_lt_le.
  - intros Hle Hlt. exact (Qcle_not_lt _ _ Hle Hlt).
Qed.

Lemma leb_Fin_false (a b : Qc) : X.leb (Fin a) (Fin b) = false <-> (b < a)%Qc.
Proof.
  rewrite <- not_true_iff_false, leb_Fin. split.
  - apply Qcnot_le_lt.
  - intros Hlt Hle. exact (Qcle_not_lt _ _ Hle Hlt).
Qed.

Lemma Q2Qc_float_zero : Q2Qc 0.0 = 0%Qc.
Proof. apply Q2Qc_eq_iff. reflexivity. Qed.

#[export] Instance exact_laws : PyFloatLaws xnum.
Proof.
  split; cbn [flt fle lit exact_num].
  - rewrite Q2Qc_float_zero. reflexivity.
  - reflexivity.
  - intros [ | | |x]; try (cbn; congruence).
    rewrite ltb_Fin, leb_Fin_false. trivial.
  - intros [ | | |x]; try (cbn; congruence).
    rewrite ltb_Fin, leb_Fin. apply Qclt_le_weak.
  - intros [ | | |x]; try (cbn; congruence).
    rewrite ltb_Fin, leb_Fin. apply Qclt_le_weak.
  - intros [ | | |x]; try (cbn; congruence).
    rewrite leb_Fin, ltb_Fin_false. trivial.
  - intros [ | | |x] [ | | |y]; try (cbn; congruence).
    rewrite leb_Fin, !ltb_Fin. apply Qcle_lt_trans.
Qed.

(** ** Consequences of the laws, on any carrier *)

Section ZeroFacts.

Context {F : Type} `{PyFloatLaws F}.

Local Open Scope py_scope.

(** Nothing is left to tax: the slab takes nothing, whatever its width. *)
Lemma slab_amount_exhausted (width remaining : F) :
  (remaining <=? lit 0) = true ->
  py_max (lit 0.0) (py_min width remaining) = lit 0.0.
Proof.
  intros Hrem. unfold py_max, py_min. rewrite lit_float_zero.
  destruct (remaining <? width) eqn:Hlt.
  - destruct (lit 0 <? remaining) eqn:Hpos; [|reflexivity].
    apply flt_zero_not_le in Hpos. congruence.
  - destruct (lit 0 <? width) eqn:Hpos; [|reflexivity].
    rewrite (fle_zero_lt_trans _ _ Hrem Hpos) in Hlt. discriminate.
Qed.

Lemma slab_loop_exhausted (slabs : list (F * F)) (tax lower remaining : F) :
  (remaining <=? lit 0) = true ->
  slab_loop slabs tax lower remaining = tax.
Proof.
  intros Hrem. revert lower.
  induction slabs as [|[upper rate] slabs IH]; intros lower; cbn.
  - reflexivity.
  - rewrite slab_amount_exhausted by assumption.
    rewrite lit_float_zero, fle_zero_zero. apply IH.
Qed.

Lemma slab_loop_no_break_exhausted (slabs : list (F * F)) (tax lower remaining : F) :
  (remaining <=? lit 0) = true ->
  slab_loop_no_break slabs tax lower remaining = tax.
Proof.
  intros Hrem. revert lower.
  induction slabs as [|[upper rate] slabs IH]; intros lower; cbn.
  - reflexivity.
  - rewrite slab_amount_exhausted by assumption.
    rewrite lit_float_zero, fle_zero_zero. apply IH.
Qed.

Lemma slab_loop_break_irrelevant (slabs : list (F * F)) (tax lower remaining : F) :
  slab_loop slabs tax lower remaining = slab_loop_no_break slabs tax lower remaining.
Proof.
  revert tax lower remaining.
  induction slabs as [|[upper rate] slabs IH]; intros tax lower remaining; cbn.
  - reflexivity.
  - destruct (_ <=? lit 0) eqn:Hskip; [apply IH|].
    destruct (_ <=? lit 0) eqn:Hdone at 1; [|apply IH].
    symmetry. apply slab_loop_no_break_exhausted. exact Hdone.
Qed.

Lemma py_max_zero_nonneg (x : F) : (lit 0 <=? py_max (lit 0.0) x) = true.
Proof.
  unfold py_max. rewrite lit_float_zero. destruct (lit 0 <? x) eqn:Hpos.
  - apply flt_zero_le. exact Hpos.
  - apply fle_zero_zero.
Qed.

End ZeroFacts.

(** ** The exact carrier: schedules and the closed form of the loop *)

Create Rewrite HintDb exact_ops.

Section ExactFacts.

Local Open Scope Qc_scope.

Lemma Qcmin_spec (a b : Qc) :
  (b < a /\ Qcmin a b = b) \/ (a <= b /\ Qcmin a b = a).
Proof.
  unfold Qcmin. destruct (X.ltb (Fin b) (Fin a)) eqn:E.
  - left. apply ltb_Fin in E. auto.
  - right. apply ltb_Fin_false in E. auto.
Qed.

Lemma Qcmax_spec (a b : Qc) :
  (a < b /\ Qcmax a b = b) \/ (b <= a /\ Qcmax a b = a).
Proof.
  unfold Qcmax. destruct (X.ltb (Fin a) (Fin b)) eqn:E.
  - left. apply ltb_Fin in E. auto.
  - right. apply ltb_Fin_false in E. auto.
Qed.

(** Case split on every [Qcmin] and [Qcmax] in sight. *)
Ltac split_minmax :=
  repeat match goal with
  | |- context [Qcmin ?a ?b] =>
      let H := fresh "Hmin" in
      destruct (Qcmin_spec a b) as [[? H]|[? H]]; rewrite H in *; clear H
  | |- context [Qcmax ?a ?b] =>
      let H := fresh "Hmax" in
      destruct (Qcmax_spec a b) as [[? H]|[? H]]; rewrite H in *; clear H
  | H0 : context [Qcmin ?a ?b] |- _ =>
      let H := fresh "Hmin" in
      destruct (Qcmin_spec a b) as [[? H]|[? H]]; rewrite H in *; clear H
  | H0 : context [Qcmax ?a ?b] |- _ =>
      let H := fresh "Hmax" in
      destruct (Qcmax_spec a b) as [[? H]|[? H]]; rewrite H in *; clear H
  end.

Lemma valid_from_cons (lower : Qc) (upper rate : xnum) (rest : list (xnum * xnum)) :
  valid_from lower ((upper, rate) :: rest) = true ->
  exists r, rate = Fin r /\ 0 <= r /\
    ((upper = XPosInf /\ rest = []) \/
     (exists u, upper = Fin u /\ lower < u /\ rest <> [] /\ valid_from u rest = true)).
Proof.
  cbn [valid_from]. destruct rest as [|slab rest].
  - destruct upper; try discriminate. destruct rate as [ | | |r]; try discriminate.
    intros Hr. apply leb_Fin in Hr. exists r. auto.
  - destruct upper as [ | | |u]; try discriminate.
    rewrite !andb_true_iff. intros [[Hlt Hr] Hrest].
    destruct rate as [ | | |r]; try discriminate.
    apply leb_Fin in Hr. apply ltb_Fin in Hlt.
    exists r. repeat split; trivial. right. exists u. repeat split; trivial.
    discriminate.
Qed.

(** The float operations of the exact carrier, on finite numbers. *)
Lemma exact_lit (q : Q) : @lit xnum exact_num q = Fin (Q2Qc q).
Proof. reflexivity. Qed.

Lemma exact_sub (a b : Qc) : fsub (Fin a) (Fin b) = Fin (a - b).
Proof. reflexivity. Qed.

Lemma exact_add (a b : Qc) : fadd (Fin a) (Fin b) = Fin (a + b).
Proof. reflexivity. Qed.

Lemma exact_mul (a b : Qc) : fmul (Fin a) (Fin b) = Fin (a * b).
Proof. reflexivity. Qed.

Lemma exact_min (a b : Qc) : py_min (Fin a) (Fin b) = Fin (Qcmin a b).
Proof.
  unfold py_min, Qcmin. cbn [flt exact_num].
  destruct (X.ltb (Fin b) (Fin a)); reflexivity.
Qed.

Lemma exact_max (a b : Qc) : py_max (Fin a) (Fin b) = Fin (Qcmax a b).
Proof.
  unfold py_max, Qcmax. cbn [flt exact_num].
  destruct (X.ltb (Fin a) (Fin b)); reflexivity.
Qed.

Lemma exact_min_inf (b : Qc) : py_min XPosInf (Fin b) = Fin b.
Proof. reflexivity. Qed.

Lemma exact_sub_inf (b : Qc) : fsub XPosInf (Fin b) = XPosInf.
Proof. reflexivity. Qed.

Lemma exact_min_fin_inf (a : Qc) : py_min (Fin a) XPosInf = Fin a.
Proof. reflexivity. Qed.

Lemma exact_min_inf_inf : py_min XPosInf XPosInf = XPosInf.
Proof. reflexivity. Qed.

Lemma exact_max_inf (a : Qc) : py_max (Fin a) XPosInf = XPosInf.
Proof. reflexivity. Qed.

#[local] Hint Rewrite exact_lit Q2Qc_float_zero exact_sub exact_add exact_mul
  exact_min exact_min_inf exact_max exact_sub_inf exact_min_fin_inf
  exact_min_inf_inf exact_max_inf : exact_ops.

Ltac exact_ops := autorewrite with exact_ops; cbn [fle flt exact_num].

(** One turn of the loop on a finite slab, and on the unbounded one. *)
Lemma slab_loop_step_fin (u rate : Qc) (rest : list (xnum * xnum)) (t l r : Qc) :
  slab_loop ((Fin u, Fin rate) :: rest) (Fin t) (Fin l) (Fin r) =
  let a := Qcmax 0 (Qcmin (u - l) r) in
  if X.leb (Fin a) (Fin 0) then slab_loop rest (Fin t) (Fin u) (Fin r)
  else if X.leb (Fin (r - a)) (Fin 0) then Fin (t + a * rate)
  else slab_loop rest (Fin (t + a * rate)) (Fin u) (Fin (r - a)).
Proof.
  cbn [slab_loop]. exact_ops. reflexivity.
Qed.

Lemma slab_loop_step_inf (rate : Qc) (rest : list (xnum * xnum)) (t l r : Qc) :
  slab_loop ((XPosInf, Fin rate) :: rest) (Fin t) (Fin l) (Fin r) =
  let a := Qcmax 0 r in
  if X.leb (Fin a) (Fin 0) then slab_loop rest (Fin t) XPosInf (Fin r)
  else if X.leb (Fin (r - a)) (Fin 0) then Fin (t + a * rate)
  else slab_loop rest (Fin (t + a * rate)) XPosInf (Fin (r - a)).
Proof.
  cbn [slab_loop]. exact_ops. reflexivity.
Qed.

(** Brackets that start at or above the income charge nothing. *)
Lemma bracket_tax_above (slabs : list (xnum * xnum)) :
  forall lower x : Qc,
  valid_from lower slabs = true -> x <= lower -> bracket_tax lower slabs x = 0.
Proof.
  induction slabs as [|[upper rate] rest IH]; intros lower x Hvalid Hx.
  - reflexivity.
  - apply valid_from_cons in Hvalid.
    destruct Hvalid as (r & -> & Hr & [[-> ->]|(u & -> & Hlu & _ & Hrest)]); cbn [bracket_tax].
    + split_minmax; qc_auto.
    + rewrite (IH u x Hrest) by qc_lra.
      split_minmax; qc_auto.
Qed.

(** The loop computes the bracket sum. *)
Lemma slab_loop_closed_form (slabs : list (xnum * xnum)) :
  forall lower tax x : Qc,
  valid_from lower slabs = true -> lower <= x ->
  slab_loop slabs (Fin tax) (Fin lower) (Fin (x - lower))
  = Fin (tax + bracket_tax lower slabs x).
Proof.
  induction slabs as [|[upper rate] rest IH]; intros lower tax x Hvalid Hx.
  - discriminate.
  - apply valid_from_cons in Hvalid.
    destruct Hvalid as (r & -> & Hr & [[-> ->]|(u & -> & Hlu & _ & Hrest)]).
    + rewrite slab_loop_step_inf. cbn [bracket_tax slab_loop]. cbv zeta.
      destruct (X.leb (Fin (Qcmax 0 (x - lower))) (Fin 0)) eqn:Hskip.
      * apply leb_Fin in Hskip. f_equal.
        split_minmax; qc_auto.
      * apply leb_Fin_false in Hskip.
        destruct (X.leb _ _) eqn:Hdone; [reflexivity|].
        apply leb_Fin_false in Hdone. split_minmax; qc_lra.
    + rewrite slab_loop_step_fin. cbn [bracket_tax]. cbv zeta.
      destruct (X.leb (Fin (Qcmax 0 (Qcmin (u - lower) (x - lower)))) (Fin 0)) eqn:Hskip.
      * apply leb_Fin in Hskip.
        assert (Hxl : x = lower) by (split_minmax; qc_lra).
        subst x. rewrite slab_loop_exhausted by (apply leb_Fin; qc_lra).
        rewrite (bracket_tax_above rest u lower Hrest) by qc_lra.
        f_equal. split_minmax; qc_auto.
      * apply leb_Fin_false in Hskip.
        destruct (X.leb _ _) eqn:Hdone.
        -- apply leb_Fin in Hdone.
           assert (Hxu : x <= u) by (split_minmax; qc_lra).
           rewrite (bracket_tax_above rest u x Hrest) by exact Hxu.
           f_equal.
           replace (Qcmin (u - lower) (x - lower)) with (Qcmin u x - lower)
             by (split_minmax; qc_lra).
           ring.
        -- apply leb_Fin_false in Hdone.
           assert (Hux : u < x) by (split_minmax; qc_lra).
           replace (x - lower - Qcmax 0 (Qcmin (u - lower) (x - lower))) with (x - u)
             by (split_minmax; qc_lra).
           rewrite (IH u _ x Hrest) by qc_lra.
           f_equal.
           replace (Qcmin (u - lower) (x - lower)) with (Qcmin u x - lower)
             by (split_minmax; qc_lra).
           ring.
Qed.

Lemma compute_tax_closed_form (slabs : list (xnum * xnum)) (x : Qc) :
  valid_schedule slabs = true -> 0 <= x ->
  _compute_tax_from_slabs (Fin x) slabs = Fin (bracket_tax 0 slabs x).
Proof.
  intros Hvalid Hx. unfold _compute_tax_from_slabs.
  rewrite exact_lit, Q2Qc_float_zero.
  replace x with (x - 0) at 1 by ring.
  rewrite (slab_loop_closed_form slabs 0 0 x Hvalid Hx).
  f_equal. ring.
Qed.

(** The bracket sum grows with the income. *)
Lemma bracket_tax_monotone (slabs : list (xnum * xnum)) :
  forall lower a b : Qc,
  valid_from lower slabs = true -> a <= b ->
  bracket_tax lower slabs a <= bracket_tax lower slabs b.
Proof.
  induction slabs as [|[upper rate] rest IH]; intros lower a b Hvalid Hab.
  - discriminate.
  - apply valid_from_cons in Hvalid.
    destruct Hvalid as (r & -> & Hr & [[-> ->]|(u & -> & Hlu & _ & Hrest)]); cbn [bracket_tax].
    + apply Qcmult_le_compat_r; [|exact Hr].
      split_minmax; qc_lra.
    + apply Qcplus_le_compat; [|exact (IH u a b Hrest Hab)].
      apply Qcmult_le_compat_r; [|exact Hr].
      split_minmax; qc_lra.
Qed.

Lemma compute_tax_monotone (slabs : list (xnum * xnum)) (a b : Qc) :
  valid_schedule slabs = true -> 0 <= a -> a <= b ->
  (_compute_tax_from_slabs (Fin a) slabs <=? _compute_tax_from_slabs (Fin b) slabs)%py = true.
Proof.
  intros Hvalid Ha Hab.
  rewrite !compute_tax_closed_form by (trivial; qc_lra).
  apply leb_Fin. apply bracket_tax_monotone; assumption.
Qed.

(** Addition on the exact carrier. *)
Lemma exact_add_assoc (a b c : xnum) : X.add a (X.add b c) = X.add (X.add a b) c.
Proof.
  destruct a, b, c; cbn; try reflexivity. f_equal. ring.
Qed.

Lemma exact_add_0_r (a : xnum) : X.add a (Fin 0) = a.
Proof.
  destruct a; cbn; try reflexivity. f_equal. ring.
Qed.

Lemma exact_add_0_l (a : xnum) : X.add (Fin 0) a = a.
Proof.
  destruct a; cbn; try reflexivity. f_equal. ring.
Qed.

(** In a valid schedule every upper bound lies above the running [lower]. *)
Lemma valid_from_bound_above (pre post : list (xnum * xnum)) (u rate : xnum) :
  forall lower : Qc,
  valid_from lower (pre ++ (u, rate) :: post) = true ->
  X.ltb (Fin lower) u = true.
Proof.
  induction pre as [|[u0 r0] pre IH]; intros lower Hvalid.
  - cbn [app] in Hvalid. apply valid_from_cons in Hvalid.
    destruct Hvalid as (r & _ & _ & [[-> _]|(u' & -> & Hlt & _)]).
    + reflexivity.
    + apply ltb_Fin. exact Hlt.
  - cbn [app] in Hvalid. apply valid_from_cons in Hvalid.
    destruct Hvalid as (r & _ & _ & [[_ Hnil]|(u' & _ & Hlt & _ & Hrest)]).
    + destruct pre; discriminate.
    + specialize (IH u' Hrest). destruct u as [ | | |u]; try discriminate.
      * reflexivity.
      * apply ltb_Fin. apply ltb_Fin in IH. qc_lra.
Qed.

(** An income that reaches exactly the upper bound [u] of a bracket fills
    that bracket and all those before it, and nothing else. *)
Lemma slab_loop_at_boundary (pre post : list (xnum * xnum)) (u rate : xnum) :
  forall lower tax : Qc,
  valid_from lower (pre ++ (u, rate) :: post) = true ->
  slab_loop (pre ++ (u, rate) :: post) (Fin tax) (Fin lower) (fsub u (Fin lower))
  = fadd (Fin tax) (filled_sum (Fin lower) (pre ++ [(u, rate)])).
Proof.
  induction pre as [|[u0 r0] pre IH]; intros lower tax Hvalid.
  - cbn [app] in *. apply valid_from_cons in Hvalid.
    destruct Hvalid as (r & -> & Hr & [[-> ->]|(u' & -> & Hlt & _)]).
    + cbn [slab_loop filled_sum]. exact_ops. cbn [X.leb X.sub X.add X.opp].
      cbn [fadd exact_num]. rewrite exact_add_0_r. reflexivity.
    + rewrite exact_sub, slab_loop_step_fin. cbn [filled_sum]. cbv zeta.
      replace (Qcmax 0 (Qcmin (u' - lower) (u' - lower))) with (u' - lower)
        by (split_minmax; qc_lra).
      rewrite (proj2 (leb_Fin_false _ _)) by qc_lra.
      rewrite (proj2 (leb_Fin _ _)) by qc_lra.
      exact_ops. cbn [fadd exact_num X.add]. f_equal. ring.
  - assert (Habove := valid_from_bound_above ((u0, r0) :: pre) post u rate lower Hvalid).
    cbn [app] in *. apply valid_from_cons in Hvalid.
    destruct Hvalid as (r & -> & Hr & [[_ Hnil]|(u0' & -> & Hlt & _ & Hrest)]).
    { destruct pre; discriminate. }
    assert (Hu0 := valid_from_bound_above pre post u rate u0' Hrest).
    assert (Hsum : forall rest_sum : xnum,
      fadd (Fin tax) (fadd (fmul (fsub (Fin u0') (Fin lower)) (Fin r)) rest_sum)
      = fadd (Fin (tax + (u0' - lower) * r)) rest_sum).
    { intros rest_sum. cbn [fadd exact_num]. rewrite exact_add_assoc. reflexivity. }
    cbn [filled_sum]. rewrite Hsum, <- (IH u0' _ Hrest). clear Hsum IH.
    destruct u as [ | | |u]; try discriminate.
    + (* the unbounded bracket: the income is [+inf] *)
      cbn [slab_loop]. exact_ops.
      replace (Qcmax 0 (u0' - lower)) with (u0' - lower)
        by (split_minmax; qc_lra).
      rewrite (proj2 (leb_Fin_false _ _)) by qc_lra.
      reflexivity.
    + apply ltb_Fin in Hu0.
      rewrite !exact_sub, slab_loop_step_fin. cbv zeta.
      replace (Qcmax 0 (Qcmin (u0' - lower) (u - lower))) with (u0' - lower)
        by (split_minmax; qc_lra).
      rewrite (proj2 (leb_Fin_false _ _)) by qc_lra.
      rewrite (proj2 (leb_Fin_false _ _)) by qc_lra.
      replace (u - lower - (u0' - lower)) with (u - u0') by ring.
      reflexivity.
Qed.

End ExactFacts.

(** ** What [_calculate_tax] computes, field by field *)

Section Breakdown.

Context {F : Type} `{PyFloat F}.

Local Open Scope py_scope.

Lemma taxable_income_eq (self : SalaryApp F) :
  let out := fst (_calculate_tax self) in
  taxable_income out
  = py_max (lit 0.0) (gross_total_income out - total_deductions out).
Proof.
  unfold _calculate_tax. destruct (choose_regime self (regime_var self)).
  reflexivity.
Qed.

Lemma tax_before_cess_eq (self : SalaryApp F) :
  let out := fst (_calculate_tax self) in
  tax_before_cess out
  = (let '(slabs, rebate_limit) := choose_regime self (regime_var self) in
     if taxable_income out <=? rebate_limit then lit 0.0
     else _compute_tax_from_slabs (taxable_income out) slabs).
Proof.
  unfold _calculate_tax. destruct (choose_regime self (regime_var self)).
  reflexivity.
Qed.

Lemma cess_eq (self : SalaryApp F) :
  let out := fst (_calculate_tax self) in
  cess out = tax_before_cess out * CESS_RATE self
  /\ total_tax out = tax_before_cess out + cess out.
Proof.
  unfold _calculate_tax. destruct (choose_regime self (regime_var self)).
  split; reflexivity.
Qed.

Lemma choose_regime_new (self : SalaryApp F) :
  choose_regime self "new" = (NEW_REGIME_SLABS self, NEW_REBATE_LIMIT self).
Proof. reflexivity. Qed.

Lemma choose_regime_other (self : SalaryApp F) (regime : string) :
  regime <> "new"%string ->
  choose_regime self regime = (OLD_REGIME_SLABS self, OLD_REBATE_LIMIT self).
Proof.
  intros Hregime. unfold choose_regime.
  destruct (String.eqb_spec regime "new"); [contradiction|reflexivity].
Qed.

End Breakdown.

(** ** The claims *)

Local Open Scope py_scope.

(** Two amounts of the exact carrier are equal when their fractions are. *)
Lemma Fin_eq (a b : Qc) : Qeq_bool a b = true -> Fin a = Fin b.
Proof.
  intros Heq. f_equal. apply Qc_is_canon. apply Qeq_bool_iff. exact Heq.
Qed.

(** C1. Scenario 1 (new regime, no rebate): a monthly basic pay of 100000
    with the standard deduction of 50000 gives a gross salary of 1200000,
    a taxable income of 1150000, a tax before cess of 82500, a cess of
    3300, a total tax of 85800 and a monthly withholding of 7150; the
    rebate test [taxable_income <= 700000] fails.  This holds on binary64
    floats, as Python computes it, and in exact arithmetic. *)
Theorem scenario_1_breakdown :
  fst (_calculate_tax (F:=float) scenario_1)
  = {| gross_salary := 1200000%float;
       other_income := 0%float;
       gross_total_income := 1200000%float;
       total_deductions := 50000%float;
       taxable_income := 1150000%float;
       tax_before_cess := 82500%float;
       cess := 3300%float;
       total_tax := 85800%float;
       monthly_tds := 7150%float |}
  /\ (taxable_income (fst (_calculate_tax (F:=float) scenario_1))
        <=? NEW_REBATE_LIMIT scenario_1) = false
  /\ fst (_calculate_tax (F:=xnum) scenario_1)
     = {| gross_salary := lit 1200000;
          other_income := lit 0;
          gross_total_income := lit 1200000;
          total_deductions := lit 50000;
          taxable_income := lit 1150000;
          tax_before_cess := lit 82500;
          cess := lit 3300;
          total_tax := lit 85800;
          monthly_tds := lit 7150 |}
  /\ (taxable_income (fst (_calculate_tax (F:=xnum) scenario_1))
        <=? NEW_REBATE_LIMIT scenario_1) = false.
Proof.
  split; [vm_compute; reflexivity|].
  split; [vm_compute; reflexivity|].
  split; [|vm_compute; reflexivity].
  vm_compute. f_equal; apply Fin_eq; reflexivity.
Qed.

(** The new-regime table is a valid schedule, and so is the old one. *)
Lemma new_regime_valid : valid_schedule (NEW_REGIME_SLABS __init__) = true.
Proof. reflexivity. Qed.

Lemma old_regime_valid : valid_schedule (OLD_REGIME_SLABS __init__) = true.
Proof. reflexivity. Qed.

(** With the new regime chosen, the tax before cess is the rebate test at
    700000 followed by the walk over the new-regime table. *)
Lemma tax_before_cess_new {F : Type} `{PyFloat F}
    (basic hra other_allow other_income std_ded sec80c sec80d : option F) :
  let self :=
    fill_form __init__ basic hra other_allow other_income std_ded sec80c sec80d "new" in
  let out := fst (_calculate_tax self) in
  tax_before_cess out
  = if taxable_income out <=? lit 700000 then lit 0.0
    else _compute_tax_from_slabs (taxable_income out) (NEW_REGIME_SLABS __init__).
Proof.
  intros self out. unfold out. rewrite tax_before_cess_eq. reflexivity.
Qed.

(** In exact arithmetic the new-regime walk above the rebate limit is at
    least the 25000 it charges on 700000, so it is positive. *)
Lemma new_regime_tax_above_limit (income : xnum) :
  (lit 700000 <? income) = true ->
  (lit 25000 <=? _compute_tax_from_slabs income (NEW_REGIME_SLABS __init__)) = true
  /\ (lit 0 <? _compute_tax_from_slabs income (NEW_REGIME_SLABS __init__)) = true.
Proof.
  destruct income as [ | | |q]; try discriminate.
  - intros _. split; reflexivity.
  - intros Hq. apply ltb_Fin in Hq.
    assert (Hmono := compute_tax_monotone (NEW_REGIME_SLABS __init__)
                       (Q2Qc 700000) q new_regime_valid).
    rewrite (compute_tax_closed_form _ q new_regime_valid) in * by qc_lra.
    assert (Hat : _compute_tax_from_slabs (Fin (Q2Qc 700000)) (NEW_REGIME_SLABS __init__)
                  = Fin (Q2Qc 25000)).
    { vm_compute. apply Fin_eq. reflexivity. }
    rewrite Hat in Hmono.
    assert (H25 : (Q2Qc 25000 <= bracket_tax 0 (NEW_REGIME_SLABS __init__) q)%Qc).
    { apply leb_Fin. apply Hmono; qc_lra. }
    split; [apply leb_Fin; exact H25|].
    apply ltb_Fin. qc_lra.
Qed.

(** C2. Under the new regime the rebate is a cliff at 700000: whenever the
    taxable income is at most 700000 the tax before cess is exactly 0 (on
    every carrier), and whenever it is above 700000 the tax before cess is
    positive, indeed at least 25000 (in exact arithmetic).  On binary64
    floats a taxable income of 700000 gives 0 and one of 700001 gives a
    positive tax. *)
Theorem rebate_cliff_new_regime :
  (forall (F : Type) (H : PyFloat F)
          (basic hra other_allow other_income std_ded sec80c sec80d : option F),
     let out := fst (_calculate_tax
       (fill_form __init__ basic hra other_allow other_income std_ded sec80c sec80d "new")) in
     (taxable_income out <=? lit 700000) = true -> tax_before_cess out = lit 0.0)
  /\ (forall basic hra other_allow other_income std_ded sec80c sec80d : option xnum,
     let out := fst (_calculate_tax
       (fill_form __init__ basic hra other_allow other_income std_ded sec80c sec80d "new")) in
     (lit 700000 <? taxable_income out) = true ->
     (lit 0 <? tax_before_cess out) = true
     /\ (lit 25000 <=? tax_before_cess out) = true)
  /\ (let out := fst (_calculate_tax (F:=float) (other_income_only 750000%float)) in
      taxable_income out = 700000%float /\ tax_before_cess out = 0%float)
  /\ (let out := fst (_calculate_tax (F:=float) (other_income_only 750001%float)) in
      taxable_income out = 700001%float /\ (0 <? tax_before_cess out)%float = true).
Proof.
  split; [|split; [|split]].
  - intros F H basic hra other_allow other_income std_ded sec80c sec80d out Hle.
    unfold out in *. rewrite tax_before_cess_new, Hle. reflexivity.
  - intros basic hra other_allow other_income std_ded sec80c sec80d out Hlt.
    unfold out in *. rewrite tax_before_cess_new.
    revert Hlt. generalize (taxable_income (fst (_calculate_tax
      (fill_form __init__ basic hra other_allow other_income std_ded sec80c sec80d "new")))).
    intros income Hlt.
    assert (Hnot : (income <=? lit 700000) = false).
    { destruct income as [ | | |q]; try discriminate; [reflexivity|].
      apply leb_Fin_false. apply ltb_Fin in Hlt. exact Hlt. }
    rewrite Hnot.
    destruct (new_regime_tax_above_limit income Hlt) as [H25 Hpos].
    split; assumption.
  - vm_compute. split; reflexivity.
  - vm_compute. split; reflexivity.
Qed.

(** C3. The bracket walk is monotone: on every valid schedule, incomes
    [0 <= a <= b] give [tax a <= tax b] (in exact arithmetic). *)
Theorem compute_tax_is_monotone (slabs : list (xnum * xnum)) (a b : Qc) :
  valid_schedule slabs = true ->
  (0 <= a)%Qc -> (a <= b)%Qc ->
  (_compute_tax_from_slabs (Fin a) slabs <=? _compute_tax_from_slabs (Fin b) slabs) = true.
Proof.
  intros Hvalid Ha Hab.
  rewrite (compute_tax_closed_form slabs a Hvalid Ha).
  rewrite (compute_tax_closed_form slabs b Hvalid) by qc_lra.
  apply leb_Fin. apply bracket_tax_monotone; assumption.
Qed.

Lemma compute_tax_is_monotone_witness :
  valid_schedule (NEW_REGIME_SLABS __init__) = true
  /\ (0 <= Q2Qc 650000)%Qc /\ (Q2Qc 650000 <= Q2Qc 1150000)%Qc
  /\ (_compute_tax_from_slabs (Fin (Q2Qc 650000)) (NEW_REGIME_SLABS __init__)
      <=? _compute_tax_from_slabs (Fin (Q2Qc 1150000)) (NEW_REGIME_SLABS __init__)) = true.
Proof.
  assert (Hvalid : valid_schedule (NEW_REGIME_SLABS __init__) = true) by reflexivity.
  assert (H0 : (0 <= Q2Qc 650000)%Qc) by (apply leb_Fin; reflexivity).
  assert (Hab : (Q2Qc 650000 <= Q2Qc 1150000)%Qc) by (apply leb_Fin; reflexivity).
  exact (conj Hvalid (conj H0 (conj Hab
           (compute_tax_is_monotone _ _ _ Hvalid H0 Hab)))).
Defined.

(** C4. In every breakdown the cess is the tax before cess (the rebate
    already applied) times the cess rate 0.04, and the total tax is the tax
    before cess plus the cess. *)
Theorem cess_proportional :
  forall (F : Type) (H : PyFloat F)
         (basic hra other_allow other_income std_ded sec80c sec80d : option F)
         (regime : string),
  let out := fst (_calculate_tax
    (fill_form __init__ basic hra other_allow other_income std_ded sec80c sec80d regime)) in
  cess out = tax_before_cess out * lit 0.04
  /\ total_tax out = tax_before_cess out + cess out.
Proof.
  intros F H basic hra other_allow other_income std_ded sec80c sec80d regime out.
  exact (cess_eq (fill_form __init__ basic hra other_allow other_income
                    std_ded sec80c sec80d regime)).
Qed.

Lemma exact_sub_0_r (a : xnum) : fsub a (Fin 0%Qc) = a.
Proof.
  destruct a; cbn; try reflexivity. f_equal. ring.
Qed.



(** On binary64 floats the walk meets the filled sum at every boundary of
    the two tables of the program, rounding included. *)
Lemma boundary_continuity_binary64 :
  forall slabs : list (float * float),
  slabs = NEW_REGIME_SLABS __init__ \/ slabs = OLD_REGIME_SLABS __init__ ->
  forall (i : nat) (upper rate : float),
  nth_error slabs i = Some (upper, rate) ->
  _compute_tax_from_slabs upper slabs = filled_sum (lit 0.0) (firstn (S i) slabs).
Proof.
  intros slabs [-> | ->] i upper rate Hnth;
    do 6 (destruct i as [|i];
          [first [discriminate Hnth
                 |injection Hnth as <- <-; vm_compute; reflexivity]|]);
    destruct i; discriminate.
Qed.

(** C6. The early exit is an optimisation only: on every income and every
    schedule, the walk that breaks once [remaining <= 0] returns the same
    tax as the walk that goes on through the remaining brackets.  This
    holds on every carrier that satisfies the laws, binary64 floats
    included. *)
Theorem early_exit_is_optimisation :
  forall (F : Type) (H : PyFloat F), PyFloatLaws F ->
  forall (taxable_income : F) (slabs : list (F * F)),
  _compute_tax_from_slabs taxable_income slabs = compute_tax_no_break taxable_income slabs.
Proof.
  intros F H L taxable_income slabs. apply slab_loop_break_irrelevant.
Qed.

Lemma early_exit_is_optimisation_witness :
  PyFloatLaws float
  /\ _compute_tax_from_slabs 1150000%float (NEW_REGIME_SLABS __init__)
     = compute_tax_no_break 1150000%float (NEW_REGIME_SLABS __init__).
Proof.
  exact (conj binary64_laws
           (early_exit_is_optimisation float binary64 binary64_laws 1150000%float
              (NEW_REGIME_SLABS __init__))).
Defined.

(** C7. [_calculate_tax] never feeds a negative taxable income to the
    bracket walk: whatever the form holds, the taxable income is
    [max(0.0, gross_total_income - total_deductions)], it is [>= 0] and not
    [< 0], and it is this value that the walk (and the rebate test)
    receives.  This holds on every carrier that satisfies the laws. *)
Theorem taxable_income_never_negative :
  forall (F : Type) (H : PyFloat F), PyFloatLaws F ->
  forall self : SalaryApp F,
  let out := fst (_calculate_tax self) in
  taxable_income out = py_max (lit 0.0) (gross_total_income out - total_deductions out)
  /\ (lit 0 <=? taxable_income out) = true
  /\ (taxable_income out <? lit 0) = false
  /\ tax_before_cess out
     = (let '(slabs, rebate_limit) := choose_regime self (regime_var self) in
        if taxable_income out <=? rebate_limit then lit 0.0
        else _compute_tax_from_slabs (taxable_income out) slabs).
Proof.
  intros F H L self out.
  assert (Hnonneg : (lit 0 <=? taxable_income out) = true).
  { unfold out. rewrite taxable_income_eq. apply py_max_zero_nonneg. }
  split; [apply taxable_income_eq|].
  split; [exact Hnonneg|].
  split; [apply fle_zero_not_neg; exact Hnonneg|].
  apply tax_before_cess_eq.
Qed.

(** A form where the deductions (150000) exceed the income (120000). *)
Lemma taxable_income_never_negative_witness :
  PyFloatLaws float
  /\ let out := fst (_calculate_tax (F:=float)
       (fill_form __init__ (Some 10000%float) None None None
          (Some 50000%float) (Some 100000%float) None "old")) in
     taxable_income out = py_max (lit 0.0) (gross_total_income out - total_deductions out)
     /\ (lit 0 <=? taxable_income out) = true
     /\ (taxable_income out <? lit 0) = false
     /\ tax_before_cess out
        = (let '(slabs, rebate_limit) := choose_regime
             (fill_form __init__ (Some 10000%float) None None None
                (Some 50000%float) (Some 100000%float) None "old") "old" in
           if taxable_income out <=? rebate_limit then lit 0.0
           else _compute_tax_from_slabs (taxable_income out) slabs).
Proof.
  exact (conj binary64_laws
           (taxable_income_never_negative float binary64 binary64_laws
              (fill_form __init__ (Some 10000%float) None None None
                 (Some 50000%float) (Some 100000%float) None "old"))).
Defined.

(** C9. The bracket walk is total on negative incomes and returns exactly
    0 there: for every income [< 0] and every schedule, each slab amount
    [max(0.0, min(upper - lower, remaining))] is 0 and the tax is 0.  This
    holds on every carrier that satisfies the laws, binary64 floats
    included. *)
Theorem negative_income_is_taxed_zero :
  forall (F : Type) (H : PyFloat F), PyFloatLaws F ->
  forall (taxable_income : F) (slabs : list (F * F)),
  (taxable_income <? lit 0) = true ->
  (forall width : F, py_max (lit 0.0) (py_min width taxable_income) = lit 0.0)
  /\ _compute_tax_from_slabs taxable_income slabs = lit 0.0.
Proof.
  intros F H L taxable_income slabs Hneg. apply flt_neg_le in Hneg. split.
  - intros width. apply slab_amount_exhausted. exact Hneg.
  - apply slab_loop_exhausted. exact Hneg.
Qed.

Lemma negative_income_is_taxed_zero_witness :
  PyFloatLaws float
  /\ ((-1)%float <? lit 0) = true
  /\ (forall width : float, py_max (lit 0.0) (py_min width (-1)%float) = lit 0.0)
  /\ _compute_tax_from_slabs (-1)%float (NEW_REGIME_SLABS __init__) = lit 0.0.
Proof.
  assert (Hneg : ((-1)%float <? lit 0) = true) by reflexivity.
  exact (conj binary64_laws (conj Hneg
           (negative_income_is_taxed_zero float binary64 binary64_laws (-1)%float
              (NEW_REGIME_SLABS __init__) Hneg))).
Defined.

(** C10. The regime selector is an [if]/[else] on the string ["new"]:
    every other value of the radio variable (["old"], the empty string,
    anything else) selects the old-regime slabs and the rebate limit
    500000, and ["new"] itself selects the new-regime slabs and the limit
    700000. *)
Theorem regime_selector :
  forall (F : Type) (H : PyFloat F)
         (basic hra other_allow other_income std_ded sec80c sec80d : option F)
         (regime : string),
  regime <> "new"%string ->
  let form := fill_form __init__ basic hra other_allow other_income std_ded sec80c sec80d in
  let other := fst (_calculate_tax (form regime)) in
  let new := fst (_calculate_tax (form "new"%string)) in
  choose_regime (form regime) regime = (OLD_REGIME_SLABS __init__, lit 500000)
  /\ choose_regime (form "new"%string) "new" = (NEW_REGIME_SLABS __init__, lit 700000)
  /\ tax_before_cess other
     = (if taxable_income other <=? lit 500000 then lit 0.0
        else _compute_tax_from_slabs (taxable_income other) (OLD_REGIME_SLABS __init__))
  /\ tax_before_cess new
     = (if taxable_income new <=? lit 700000 then lit 0.0
        else _compute_tax_from_slabs (taxable_income new) (NEW_REGIME_SLABS __init__)).
Proof.
  intros F H basic hra other_allow other_income std_ded sec80c sec80d regime Hregime
    form other new.
  assert (Hother : choose_regime (form regime) regime
                   = (OLD_REGIME_SLABS __init__, lit 500000)).
  { rewrite choose_regime_other by exact Hregime. reflexivity. }
  split; [exact Hother|]. split; [reflexivity|]. split.
  - unfold other. rewrite tax_before_cess_eq.
    change (regime_var (form regime)) with regime. rewrite Hother. reflexivity.
  - unfold new, form. apply tax_before_cess_new.
Qed.

Lemma regime_selector_witness :
  ""%string <> "new"%string
  /\ choose_regime (F:=float) scenario_1 "" = (OLD_REGIME_SLABS __init__, lit 500000)
  /\ tax_before_cess (fst (_calculate_tax (F:=float)
       (fill_form __init__ (Some 100000%float) None None None (Some 50000%float)
          None None "")))
     = 157500%float.
Proof.
  assert (Hregime : ""%string <> "new"%string) by discriminate.
  pose proof (regime_selector float binary64 (Some 100000%float) None None None
                (Some 50000%float) None None "" Hregime) as (Hchoice & _ & Hother & _).
  split; [exact Hregime|]. split; [exact Hchoice|].
  rewrite Hother. reflexivity.
Defined.

(** ** Dicts, [max], [sorted] and [strip] *)

Section DictFacts.

Context {V : Type}.

Implicit Types (d : dict V) (k : Z) (v : V).

Lemma dict_get_set_same d k v : dict_get (dict_set d k v) k = Some v.
Proof.
  induction d as [|[k' v'] d IH]; cbn.
  - rewrite Z.eqb_refl. reflexivity.
  - destruct (k' =? k)%Z eqn:E; cbn.
    + rewrite Z.eqb_refl. reflexivity.
    + rewrite E. exact IH.
Qed.

Lemma dict_get_set_other d k v k' :
  k' <> k -> dict_get (dict_set d k v) k' = dict_get d k'.
Proof.
  intros Hne. induction d as [|[k0 v0] d IH]; cbn.
  - destruct (k =? k')%Z eqn:E; [|reflexivity].
    apply Z.eqb_eq in E. congruence.
  - destruct (k0 =? k)%Z eqn:E; cbn.
    + apply Z.eqb_eq in E. subst k0.
      destruct (k =? k')%Z eqn:E'; [|reflexivity].
      apply Z.eqb_eq in E'. congruence.
    + rewrite IH. reflexivity.
Qed.

Lemma dict_get_None d k : dict_get d k = None <-> ~ In k (dict_keys d).
Proof.
  induction d as [|[k' v'] d IH]; cbn.
  - tauto.
  - destruct (k' =? k)%Z eqn:E.
    + apply Z.eqb_eq in E. split; [discriminate|]. intros Hn. exfalso. auto.
    + apply Z.eqb_neq in E. rewrite IH. tauto.
Qed.

Lemma dict_get_Some_In d k v : dict_get d k = Some v -> In k (dict_keys d).
Proof.
  intros Hget. destruct (in_dec Z.eq_dec k (dict_keys d)) as [Hin|Hnot]; [exact Hin|].
  apply dict_get_None in Hnot. congruence.
Qed.

Lemma dict_get_In d k : In k (dict_keys d) -> exists v, dict_get d k = Some v.
Proof.
  intros Hin. destruct (dict_get d k) as [v|] eqn:E; [eauto|].
  apply dict_get_None in E. contradiction.
Qed.

(** A new key goes to the end of the dict. *)
Lemma dict_set_new d k v : dict_get d k = None -> dict_set d k v = d ++ [(k, v)].
Proof.
  induction d as [|[k' v'] d IH]; cbn; [reflexivity|].
  destruct (k' =? k)%Z; [discriminate|].
  intros Hget. rewrite IH by exact Hget. reflexivity.
Qed.

(** A key that is there keeps its place. *)
Lemma dict_keys_set_present d k v :
  In k (dict_keys d) -> dict_keys (dict_set d k v) = dict_keys d.
Proof.
  unfold dict_keys. induction d as [|[k' v'] d IH]; cbn; [tauto|].
  destruct (k' =? k)%Z eqn:E; cbn.
  - apply Z.eqb_eq in E. subst k'. reflexivity.
  - apply Z.eqb_neq in E. intros [Heq|Hin]; [contradiction|].
    rewrite IH by exact Hin. reflexivity.
Qed.

Lemma dict_set_NoDup d k v : NoDup (dict_keys d) -> NoDup (dict_keys (dict_set d k v)).
Proof.
  intros Hnd. destruct (in_dec Z.eq_dec k (dict_keys d)) as [Hin|Hnot].
  - rewrite dict_keys_set_present by exact Hin. exact Hnd.
  - rewrite dict_set_new by (apply dict_get_None; exact Hnot).
    unfold dict_keys in *. rewrite map_app. cbn.
    apply (NoDup_Add (a := k) (l := List.map fst d)).
    + rewrite <- (app_nil_r (List.map fst d)) at 1. apply Add_app.
    + split; assumption.
Qed.

Lemma dict_get_del_same d k : dict_get (dict_del d k) k = None.
Proof.
  unfold dict_del. induction d as [|[k' v'] d IH]; cbn; [reflexivity|].
  destruct (k' =? k)%Z eqn:E; cbn; [exact IH|].
  rewrite E. exact IH.
Qed.

Lemma dict_get_del_other d k k' :
  k' <> k -> dict_get (dict_del d k) k' = dict_get d k'.
Proof.
  intros Hne. unfold dict_del. induction d as [|[k0 v0] d IH]; cbn; [reflexivity|].
  destruct (k0 =? k)%Z eqn:E; cbn.
  - apply Z.eqb_eq in E. subst k0.
    destruct (k =? k')%Z eqn:E'; [|exact IH].
    apply Z.eqb_eq in E'. congruence.
  - rewrite IH. reflexivity.
Qed.

Lemma dict_keys_del d k : dict_keys (dict_del d k) = List.remove Z.eq_dec k (dict_keys d).
Proof.
  unfold dict_keys, dict_del. induction d as [|[k' v'] d IH]; cbn; [reflexivity|].
  destruct (Z.eq_dec k k') as [->|Hne].
  - rewrite Z.eqb_refl. cbn. exact IH.
  - destruct (k' =? k)%Z eqn:E.
    + apply Z.eqb_eq in E. congruence.
    + cbn. rewrite IH. reflexivity.
Qed.

Lemma dict_del_NoDup d k : NoDup (dict_keys d) -> NoDup (dict_keys (dict_del d k)).
Proof.
  unfold dict_keys, dict_del. intros Hnd.
  induction d as [|[k' v'] d IH]; cbn; [constructor|].
  inversion Hnd as [|? ? Hnot Hnd']; subst.
  destruct (k' =? k)%Z; cbn; [exact (IH Hnd')|].
  constructor; [|exact (IH Hnd')].
  intros Hin. apply Hnot. apply in_map_iff in Hin.
  destruct Hin as (item & Hfst & Hin). apply filter_In in Hin.
  apply in_map_iff. exists item. tauto.
Qed.

(** Deleting a key that was appended last gives the dict back. *)
Lemma dict_del_appended d k v :
  dict_get d k = None -> dict_del (d ++ [(k, v)]) k = d.
Proof.
  intros Hget. unfold dict_del. rewrite filter_app. cbn.
  rewrite Z.eqb_refl. cbn. rewrite app_nil_r.
  apply dict_get_None in Hget.
  induction d as [|[k' v'] d IH]; cbn; [reflexivity|].
  cbn in Hget. destruct (k' =? k)%Z eqn:E.
  - apply Z.eqb_eq in E. exfalso. auto.
  - cbn. rewrite IH by tauto. reflexivity.
Qed.

End DictFacts.

Lemma max_key_ge_init (keys : list Z) : forall k, (k <= max_key k keys)%Z.
Proof.
  unfold max_key. induction keys as [|x keys IH]; intros k; cbn; [lia|].
  specialize (IH (Z.max k x)). lia.
Qed.

Lemma max_key_ge (keys : list Z) :
  forall k x, In x keys -> (x <= max_key k keys)%Z.
Proof.
  unfold max_key. induction keys as [|y keys IH]; intros k x Hin; cbn; [contradiction|].
  destruct Hin as [->|Hin].
  - pose proof (max_key_ge_init keys (Z.max k x)) as Hge. unfold max_key in Hge. lia.
  - apply IH. exact Hin.
Qed.

Lemma max_key_In (keys : list Z) : forall k, In (max_key k keys) (k :: keys).
Proof.
  unfold max_key. induction keys as [|x keys IH]; intros k; cbn; [auto|].
  destruct (IH (Z.max k x)) as [Heq|Hin]; [|auto].
  rewrite <- Heq. destruct (Z.max_spec k x) as [[_ ->]|[_ ->]]; auto.
Qed.

Lemma insert_sorted_Permutation (k : Z) (keys : list Z) :
  Permutation (insert_sorted k keys) (k :: keys).
Proof.
  induction keys as [|x keys IH]; cbn; [reflexivity|].
  destruct (k <=? x)%Z; [reflexivity|].
  rewrite IH. apply perm_swap.
Qed.

Lemma sorted_Permutation (keys : list Z) : Permutation (sorted keys) keys.
Proof.
  induction keys as [|k keys IH]; cbn; [reflexivity|].
  rewrite insert_sorted_Permutation. constructor. exact IH.
Qed.

Lemma insert_sorted_Sorted (k : Z) (keys : list Z) :
  StronglySorted Z.le keys -> StronglySorted Z.le (insert_sorted k keys).
Proof.
  induction keys as [|x keys IH]; cbn; intros Hs.
  - repeat constructor.
  - inversion Hs as [|? ? Hs' Hall]; subst.
    destruct (k <=? x)%Z eqn:E.
    + apply Z.leb_le in E. constructor; [exact Hs|].
      constructor; [exact E|].
      eapply Forall_impl; [|exact Hall]. intros y Hy. cbn in Hy. lia.
    + apply Z.leb_gt in E. constructor; [exact (IH Hs')|].
      eapply Permutation_Forall.
      * symmetry. apply insert_sorted_Permutation.
      * constructor; [lia|exact Hall].
Qed.

Lemma sorted_Sorted (keys : list Z) : StronglySorted Z.le (sorted keys).
Proof.
  induction keys as [|k keys IH]; cbn; [constructor|].
  apply insert_sorted_Sorted. exact IH.
Qed.

(** What [strip] removes and what it leaves. *)
Lemma lstrip_split (s : pystr) :
  exists spaces, s = spaces ++ lstrip s /\ forallb is_space spaces = true.
Proof.
  induction s as [|c s IH]; cbn.
  - exists []. auto.
  - destruct (is_space c) eqn:E.
    + destruct IH as (spaces & Heq & Hall). exists (c :: spaces). cbn.
      rewrite E, Hall, <- Heq. auto.
    + exists []. auto.
Qed.

Lemma lstrip_head (s : pystr) (c : N) (rest : pystr) :
  lstrip s = c :: rest -> is_space c = false.
Proof.
  induction s as [|c' s IH]; cbn; [discriminate|].
  destruct (is_space c') eqn:E; [exact IH|].
  intros Heq. injection Heq as -> _. exact E.
Qed.

Lemma lstrip_nil (s : pystr) : lstrip s = [] <-> forallb is_space s = true.
Proof.
  induction s as [|c s IH]; cbn; [tauto|].
  destruct (is_space c); cbn; [exact IH|]. split; discriminate.
Qed.

Lemma lstrip_no_space (s : pystr) (c : N) (rest : pystr) :
  s = c :: rest -> is_space c = false -> lstrip s = s.
Proof.
  intros -> Hc. cbn. rewrite Hc. reflexivity.
Qed.

Lemma rstrip_split (s : pystr) :
  exists spaces, s = rstrip s ++ spaces /\ forallb is_space spaces = true.
Proof.
  unfold rstrip. destruct (lstrip_split (rev s)) as (spaces & Heq & Hall).
  exists (rev spaces). split.
  - rewrite <- rev_app_distr, <- Heq, rev_involutive. reflexivity.
  - rewrite forallb_forall in *. intros c Hin. apply Hall. apply in_rev. exact Hin.
Qed.

Lemma rstrip_nil (s : pystr) : rstrip s = [] <-> forallb is_space s = true.
Proof.
  unfold rstrip. split.
  - intros Heq. apply (f_equal (@rev N)) in Heq. rewrite rev_involutive in Heq.
    cbn in Heq. apply lstrip_nil in Heq.
    rewrite forallb_forall in *. intros c Hin. apply Heq. apply in_rev.
    rewrite rev_involutive. exact Hin.
  - intros Hall. assert (Hrev : lstrip (rev s) = []).
    { apply lstrip_nil. rewrite forallb_forall in *.
      intros c Hin. apply Hall. apply in_rev. exact Hin. }
    rewrite Hrev. reflexivity.
Qed.

Lemma rstrip_last (s : pystr) (c : N) :
  rstrip s <> [] -> is_space (last (rstrip s) c) = false.
Proof.
  unfold rstrip. destruct (lstrip (rev s)) as [|c' rest] eqn:E; [intros Hne; contradiction Hne; reflexivity|].
  intros _. cbn [rev]. rewrite last_last. exact (lstrip_head _ _ _ E).
Qed.

(** [strip]: the text between the leading and the trailing whitespace; what
    is left is empty or starts and ends with a character that is not
    whitespace. *)
Lemma strip_split (s : pystr) :
  exists before after,
    s = before ++ strip s ++ after
    /\ forallb is_space before = true /\ forallb is_space after = true.
Proof.
  unfold strip. destruct (lstrip_split s) as (before & Heq & Hbefore).
  destruct (rstrip_split (lstrip s)) as (after & Heq' & Hafter).
  exists before, after. rewrite <- Heq', <- Heq. auto.
Qed.

Lemma strip_nil (s : pystr) : strip s = [] <-> forallb is_space s = true.
Proof.
  unfold strip. rewrite rstrip_nil. destruct (lstrip_split s) as (spaces & Heq & Hall).
  split.
  - intros Hrest. rewrite Heq, forallb_app, Hall, Hrest. reflexivity.
  - intros Hs. apply lstrip_nil in Hs. rewrite Hs. reflexivity.
Qed.

Lemma strip_ends (s : pystr) (c : N) (rest : pystr) :
  strip s = c :: rest ->
  is_space c = false /\ is_space (last (c :: rest) c) = false.
Proof.
  unfold strip. intros Heq. split.
  - destruct (rstrip_split (lstrip s)) as (after & Hsplit & _).
    rewrite Heq in Hsplit. cbn in Hsplit. exact (lstrip_head _ _ _ Hsplit).
  - rewrite <- Heq. apply rstrip_last. rewrite Heq. discriminate.
Qed.

Lemma strip_idempotent (s : pystr) : strip (strip s) = strip s.
Proof.
  destruct (strip s) as [|c rest] eqn:E; [reflexivity|].
  destruct (strip_ends _ _ _ E) as [Hfirst Hlast].
  unfold strip. rewrite (lstrip_no_space _ _ _ eq_refl Hfirst).
  unfold rstrip.
  destruct (rev (c :: rest)) as [|c' rest'] eqn:Erev.
  - apply (f_equal (@rev N)) in Erev. rewrite rev_involutive in Erev. discriminate.
  - assert (Hc' : c' = last (c :: rest) c).
    { apply (f_equal (@rev N)) in Erev. rewrite rev_involutive in Erev.
      rewrite Erev. cbn [rev]. rewrite last_last. reflexivity. }
    rewrite (lstrip_no_space _ _ _ eq_refl) by (rewrite Hc'; exact Hlast).
    rewrite <- Erev. apply rev_involutive.
Qed.

(** ** The employee records *)

Section RecordFacts.

Context {F : Type} `{PyFloat F}.

Implicit Types (self : App F).

Lemma get_next_id_above self (k : Z) :
  In k (dict_keys (employees self)) -> (k < _get_next_id self)%Z.
Proof.
  unfold _get_next_id. destruct (dict_keys (employees self)) as [|k0 keys]; [contradiction|].
  intros [<-|Hin].
  - pose proof (max_key_ge_init keys k0). lia.
  - pose proof (max_key_ge keys k0 k Hin). lia.
Qed.

Lemma get_next_id_unused self : dict_get (employees self) (_get_next_id self) = None.
Proof.
  apply dict_get_None. intros Hin. apply get_next_id_above in Hin. lia.
Qed.

(** The state a successful [_add_employee] or [_update_employee] leaves:
    the employee stored, then the save, the tree and the cleared form. *)
Lemma employees_after_change self (emp_id : Z) (name : pystr) (gross_annual : F) :
  employees (_clear_form (_populate_treeview (_save_employees
     (store_employee self emp_id name gross_annual))))
  = dict_set (employees self) emp_id (Emp.Build_t name gross_annual).
Proof. reflexivity. Qed.

(** [_add_employee], case by case. *)
Lemma add_employee_cases self :
  let name := strip (name_var self) in
  let basic_month := to_float (basic_var (form self)) in
  let hra_month := to_float (hra_var (form self)) in
  let other_allow_month := to_float (other_allow_var (form self)) in
  (name = [] /\ _add_employee self
     = (self, showerror "Input Error" "Employee name is required."))
  \/ (name <> [] /\ no_salary_component basic_month hra_month other_allow_month = true
      /\ _add_employee self
         = (self, showerror "Input Error"
                    "Enter at least one salary component (Basic / HRA / Other)."))
  \/ (name <> [] /\ no_salary_component basic_month hra_month other_allow_month = false
      /\ _add_employee self
         = (_clear_form (_populate_treeview (_save_employees
              (store_employee self (_get_next_id self) name
                 (fmul (fadd (fadd basic_month hra_month) other_allow_month) (lit 12.0))))),
            showinfo "Success" (_get_next_id self))).
Proof.
  intros name basic_month hra_month other_allow_month.
  unfold _add_employee. fold name basic_month hra_month other_allow_month.
  destruct name as [|c rest] eqn:Ename; [left; auto|].
  right.
  destruct (no_salary_component basic_month hra_month other_allow_month) eqn:Ecomp.
  - left. split; [discriminate|split; reflexivity].
  - right. split; [discriminate|split; reflexivity].
Qed.

End RecordFacts.

(** X1. The id [_get_next_id] issues is in use by no employee, and it is
    larger than every id in use. *)
Theorem get_next_id_fresh :
  forall (F : Type) (H : PyFloat F) (self : App F),
  dict_get (employees self) (_get_next_id self) = None
  /\ (forall k, In k (dict_keys (employees self)) -> (k < _get_next_id self)%Z).
Proof.
  intros F H self. split.
  - apply get_next_id_unused.
  - intros k. apply get_next_id_above.
Qed.

(** X2. A successful [_add_employee] appends one employee under the id of
    [_get_next_id], with the stripped name and twelve times the sum of the
    three monthly components, and leaves every other employee as it was:
    no record is overwritten or lost. *)
Theorem add_employee_appends :
  forall (F : Type) (H : PyFloat F) (self : App F),
  let name := strip (name_var self) in
  let basic_month := to_float (basic_var (form self)) in
  let hra_month := to_float (hra_var (form self)) in
  let other_allow_month := to_float (other_allow_var (form self)) in
  name <> [] ->
  no_salary_component basic_month hra_month other_allow_month = false ->
  let after := fst (_add_employee self) in
  let added := Emp.Build_t name ((basic_month + hra_month + other_allow_month) * lit 12.0) in
  snd (_add_employee self) = showinfo "Success" (_get_next_id self)
  /\ employees after = employees self ++ [(_get_next_id self, added)]
  /\ dict_get (employees after) (_get_next_id self) = Some added
  /\ (forall k data, dict_get (employees self) k = Some data ->
                     dict_get (employees after) k = Some data).
Proof.
  intros F H self name basic_month hra_month other_allow_month Hname Hcomp after added.
  destruct (add_employee_cases self) as [[Hnil _]|[(_ & Hnone & _)|(_ & _ & Hadd)]].
  - contradiction.
  - fold basic_month hra_month other_allow_month in Hnone. congruence.
  - unfold after. rewrite Hadd. cbn [fst snd]. rewrite employees_after_change.
    fold name basic_month hra_month other_allow_month added.
    split; [reflexivity|]. split; [|split].
    + apply dict_set_new. apply get_next_id_unused.
    + apply dict_get_set_same.
    + intros k data Hget. rewrite dict_get_set_other; [exact Hget|].
      intros ->. rewrite get_next_id_unused in Hget. discriminate.
Qed.

Lemma add_employee_appends_witness :
  let self := type_employee (F:=float) example_app (pystr_of "  Meera ")
                (Some 40000%float) (Some 10000%float) None in
  strip (name_var self) <> []
  /\ no_salary_component 40000%float 10000%float 0%float = false
  /\ employees (fst (_add_employee self))
     = employees self ++ [(3%Z, Emp.Build_t (pystr_of "Meera") 600000%float)].
Proof.
  intros self.
  assert (Hname : strip (name_var self) <> []) by (vm_compute; discriminate).
  assert (Hcomp : no_salary_component (to_float (basic_var (form self)))
                    (to_float (hra_var (form self)))
                    (to_float (other_allow_var (form self))) = false) by reflexivity.
  destruct (add_employee_appends float binary64 self Hname Hcomp) as (_ & Happ & _).
  split; [exact Hname|]. split; [exact Hcomp|].
  rewrite Happ. reflexivity.
Defined.

(** [_update_employee], case by case. *)
Lemma update_employee_cases {F : Type} `{PyFloat F} (self : App F) :
  let name := strip (name_var self) in
  let basic_month := to_float (basic_var (form self)) in
  let hra_month := to_float (hra_var (form self)) in
  let other_allow_month := to_float (other_allow_var (form self)) in
  (selection self = [] /\ fst (_update_employee self) = self
   /\ exists text, snd (_update_employee self) = showerror "Selection Error" text)
  \/ (exists emp_id rest, selection self = emp_id :: rest
      /\ (name = [] \/ no_salary_component basic_month hra_month other_allow_month = true)
      /\ fst (_update_employee self) = self
      /\ exists text, snd (_update_employee self) = showerror "Input Error" text)
  \/ (exists emp_id rest, selection self = emp_id :: rest
      /\ name <> []
      /\ no_salary_component basic_month hra_month other_allow_month = false
      /\ _update_employee self
         = (_clear_form (_populate_treeview (_save_employees
              (store_employee self emp_id name
                 (fmul (fadd (fadd basic_month hra_month) other_allow_month) (lit 12.0))))),
            showinfo "Success" emp_id)).
Proof.
  intros name basic_month hra_month other_allow_month.
  unfold _update_employee. fold name basic_month hra_month other_allow_month.
  destruct (selection self) as [|emp_id rest].
  { left. cbn. eauto. }
  right.
  destruct name as [|c cs] eqn:Ename; cbn [orb].
  - left. exists emp_id, rest. cbn. eauto 6.
  - destruct (no_salary_component basic_month hra_month other_allow_month) eqn:Ecomp.
    + left. exists emp_id, rest. cbn. eauto 6.
    + right. exists emp_id, rest.
      split; [reflexivity|]. split; [discriminate|]. split; reflexivity.
Qed.

(** X3. [_add_employee] rejects a form exactly when the name is made of
    whitespace only (or empty) or each of the three monthly components is
    [<= 0]; it then shows "Input Error" and changes nothing.  Every other
    form is accepted. *)
Theorem add_employee_rejects :
  forall (F : Type) (H : PyFloat F) (self : App F),
  let blank := forallb is_space (name_var self) in
  let unpaid :=
    no_salary_component (to_float (basic_var (form self)))
      (to_float (hra_var (form self))) (to_float (other_allow_var (form self))) in
  if blank || unpaid then
    fst (_add_employee self) = self
    /\ exists text, snd (_add_employee self) = showerror "Input Error" text
  else snd (_add_employee self) = showinfo "Success" (_get_next_id self).
Proof.
  intros F H self blank unpaid.
  destruct (add_employee_cases self) as [[Hnil Hadd]|[(Hname & Hnone & Hadd)|(Hname & Hsome & Hadd)]].
  - apply strip_nil in Hnil. unfold blank. rewrite Hnil, Hadd. cbn. eauto.
  - unfold unpaid. rewrite Hnone, orb_true_r, Hadd. cbn. eauto.
  - assert (Hblank : blank = false).
    { unfold blank. destruct (forallb is_space (name_var self)) eqn:E; [|reflexivity].
      apply strip_nil in E. contradiction. }
    unfold unpaid. rewrite Hblank, Hsome, Hadd. reflexivity.
Qed.

(** X4. The name that [_add_employee] and [_update_employee] store is the
    text of the name entry without its leading and trailing whitespace: it
    is never empty, and neither its first nor its last character is
    whitespace. *)
Theorem stored_name_is_stripped :
  forall (F : Type) (H : PyFloat F) (self after : App F) (emp_id : Z),
  _add_employee self = (after, showinfo "Success" emp_id)
  \/ _update_employee self = (after, showinfo "Success" emp_id) ->
  exists data c rest,
    dict_get (employees after) emp_id = Some data
    /\ Emp.name data = strip (name_var self)
    /\ Emp.name data = c :: rest
    /\ is_space c = false
    /\ is_space (last (c :: rest) c) = false.
Proof.
  intros F H self after emp_id Hdone.
  assert (Hstored : exists gross_annual,
    strip (name_var self) <> []
    /\ employees after
       = dict_set (employees self) emp_id (Emp.Build_t (strip (name_var self)) gross_annual)).
  { destruct Hdone as [Hadd|Hupd].
    - destruct (add_employee_cases self) as [[_ Heq]|[(_ & _ & Heq)|(Hname & _ & Heq)]];
        rewrite Heq in Hadd; try discriminate.
      injection Hadd as <- <-. eexists. split; [exact Hname|]. apply employees_after_change.
    - destruct (update_employee_cases self)
        as [(_ & _ & text & Heq)|[(k & rest & _ & _ & _ & text & Heq)|(k & rest & _ & Hname & _ & Heq)]];
        rewrite Hupd in Heq; try discriminate.
      injection Heq as -> ->. eexists. split; [exact Hname|]. apply employees_after_change. }
  destruct Hstored as (gross_annual & Hname & ->).
  destruct (strip (name_var self)) as [|c rest] eqn:Estrip; [contradiction|].
  destruct (strip_ends _ _ _ Estrip) as [Hfirst Hlast].
  exists (Emp.Build_t (c :: rest) gross_annual), c, rest.
  rewrite dict_get_set_same. auto.
Qed.

Lemma stored_name_is_stripped_witness :
  let self := type_employee (F:=float) example_app (pystr_of "  Meera ")
                (Some 40000%float) (Some 10000%float) None in
  _add_employee self = (fst (_add_employee self), showinfo "Success" 3)
  /\ exists data, dict_get (employees (fst (_add_employee self))) 3%Z = Some data
                  /\ Emp.name data = pystr_of "Meera".
Proof.
  intros self.
  assert (Hadd : _add_employee self = (fst (_add_employee self), showinfo "Success" 3))
    by reflexivity.
  destruct (stored_name_is_stripped float binary64 self _ 3%Z (or_introl Hadd))
    as (data & c & rest & Hget & Hname & _).
  split; [exact Hadd|]. exists data. split; [exact Hget|].
  rewrite Hname. reflexivity.
Defined.

(** [qc_to_q], through nested sums and products. *)
Ltac qc_deep :=
  qc_to_q;
  repeat (progress rewrite ?this_minus, ?this_plus, ?this_opp, ?this_mult, ?this_Q2Qc in *).

(** A [nan] is not [<=] anything and absorbs sums and products. *)
Lemma binary64_nan_le (x : float) : PrimFloat.leb PrimFloat.nan x = false.
Proof. rewrite leb_spec. reflexivity. Qed.

Lemma binary64_nan_add_l (x : float) : PrimFloat.add PrimFloat.nan x = PrimFloat.nan.
Proof. apply Prim2SF_inj. rewrite add_spec. reflexivity. Qed.

Lemma binary64_nan_add_r (x : float) : PrimFloat.add x PrimFloat.nan = PrimFloat.nan.
Proof.
  apply Prim2SF_inj. rewrite add_spec.
  change (Prim2SF PrimFloat.nan) with S754_nan.
  destruct (Prim2SF x); reflexivity.
Qed.

Lemma binary64_nan_mul_l (x : float) : PrimFloat.mul PrimFloat.nan x = PrimFloat.nan.
Proof. apply Prim2SF_inj. rewrite mul_spec. reflexivity. Qed.

(** X5. [_add_employee] does not notice a [nan]: on Python's floats, when
    the name is not blank and one of the three monthly components reads as
    [nan] (the text "nan" does), the form passes the salary check and the
    employee is stored with a gross salary of [nan]. *)
Theorem add_employee_accepts_nan :
  forall self : App float,
  let basic_month := to_float (basic_var (form self)) in
  let hra_month := to_float (hra_var (form self)) in
  let other_allow_month := to_float (other_allow_var (form self)) in
  strip (name_var self) <> [] ->
  basic_month = PrimFloat.nan \/ hra_month = PrimFloat.nan
  \/ other_allow_month = PrimFloat.nan ->
  snd (_add_employee self) = showinfo "Success" (_get_next_id self)
  /\ exists data,
       dict_get (employees (fst (_add_employee self))) (_get_next_id self) = Some data
       /\ Emp.gross_salary data = PrimFloat.nan.
Proof.
  intros self basic_month hra_month other_allow_month Hname Hnan.
  assert (Hcomp : no_salary_component basic_month hra_month other_allow_month = false).
  { unfold no_salary_component. cbn [fle binary64].
    destruct Hnan as [-> | [-> | ->]]; rewrite binary64_nan_le;
      rewrite ?andb_false_r; reflexivity. }
  destruct (add_employee_appends float binary64 self Hname Hcomp) as (Hout & _ & Hget & _).
  split; [exact Hout|]. eexists. split; [exact Hget|].
  cbn [Emp.gross_salary fadd fmul binary64].
  fold basic_month hra_month other_allow_month.
  destruct Hnan as [-> | [-> | ->]];
    rewrite ?binary64_nan_add_l, ?binary64_nan_add_r, ?binary64_nan_add_l;
    apply binary64_nan_mul_l.
Qed.

Lemma add_employee_accepts_nan_witness :
  let self := type_employee (F:=float) example_app (pystr_of "Meera")
                (Some 0%float) (Some PrimFloat.nan) None in
  strip (name_var self) <> []
  /\ to_float (hra_var (form self)) = PrimFloat.nan
  /\ snd (_add_employee self) = showinfo "Success" 3.
Proof.
  intros self.
  assert (Hname : strip (name_var self) <> []) by (vm_compute; discriminate).
  assert (Hnan : to_float (hra_var (form self)) = PrimFloat.nan) by reflexivity.
  destruct (add_employee_accepts_nan self Hname (or_intror (or_introl Hnan))) as [Hout _].
  split; [exact Hname|]. split; [exact Hnan|]. exact Hout.
Defined.

(** X6. [_add_employee] checks the components one by one, not their sum:
    in exact arithmetic, a form with a name, a positive basic pay and
    components that add up to less than 0 is accepted, and the employee is
    stored with a negative gross salary, twelve times the sum. *)
Theorem add_employee_accepts_negative_total :
  forall (self : App xnum) (basic hra other_allow : Qc),
  strip (name_var self) <> [] ->
  to_float (basic_var (form self)) = Fin basic ->
  to_float (hra_var (form self)) = Fin hra ->
  to_float (other_allow_var (form self)) = Fin other_allow ->
  (0 < basic)%Qc -> (basic + hra + other_allow < 0)%Qc ->
  snd (_add_employee self) = showinfo "Success" (_get_next_id self)
  /\ exists data,
       dict_get (employees (fst (_add_employee self))) (_get_next_id self) = Some data
       /\ Emp.gross_salary data = Fin ((basic + hra + other_allow) * Q2Qc 12)
       /\ (Emp.gross_salary data <? lit 0) = true.
Proof.
  intros self basic hra other_allow Hname Hbasic Hhra Hother Hpos Hneg.
  assert (Hcomp : no_salary_component (to_float (basic_var (form self)))
                    (to_float (hra_var (form self)))
                    (to_float (other_allow_var (form self))) = false).
  { rewrite Hbasic. unfold no_salary_component. cbn [fle lit exact_num].
    rewrite (proj2 (leb_Fin_false _ _)) by exact Hpos. reflexivity. }
  destruct (add_employee_appends xnum exact_num self Hname Hcomp) as (Hout & _ & Hget & _).
  split; [exact Hout|]. eexists. split; [exact Hget|].
  cbn [Emp.gross_salary]. rewrite Hbasic, Hhra, Hother.
  assert (H12 : Q2Qc 12.0 = Q2Qc 12) by (apply Q2Qc_eq_iff; reflexivity).
  cbn [fadd fmul flt lit exact_num X.add X.mul]. rewrite H12.
  split; [reflexivity|].
  apply ltb_Fin. qc_deep. lra.
Qed.

Lemma add_employee_accepts_negative_total_witness :
  let self := type_employee (F:=xnum) example_app (pystr_of "Meera")
                (Some (lit 1000)) (Some (lit (-5000))) None in
  strip (name_var self) <> []
  /\ (0 < Q2Qc 1000)%Qc /\ (Q2Qc 1000 + Q2Qc (-5000) + Q2Qc 0.0 < 0)%Qc
  /\ snd (_add_employee self) = showinfo "Success" 3.
Proof.
  intros self.
  assert (Hname : strip (name_var self) <> []) by (vm_compute; discriminate).
  assert (Hpos : (0 < Q2Qc 1000)%Qc) by (apply ltb_Fin; reflexivity).
  assert (Hneg : (Q2Qc 1000 + Q2Qc (-5000) + Q2Qc 0.0 < 0)%Qc)
    by (apply ltb_Fin; reflexivity).
  destruct (add_employee_accepts_negative_total self (Q2Qc 1000) (Q2Qc (-5000)) (Q2Qc 0.0)
              Hname eq_refl eq_refl eq_refl Hpos Hneg) as [Hout _].
  split; [exact Hname|]. split; [exact Hpos|]. split; [exact Hneg|]. exact Hout.
Defined.

Section ChangeFacts.

Context {F : Type} `{PyFloat F}.

Implicit Types (self : App F).

Lemma get_next_id_employees self self' :
  employees self = employees self' -> _get_next_id self = _get_next_id self'.
Proof. unfold _get_next_id. intros ->. reflexivity. Qed.

(** [_delete_employee] on a selected employee that is there. *)
Lemma delete_employee_present self (emp_id : Z) (rest : list Z) (confirmed : bool) :
  selection self = emp_id :: rest ->
  In emp_id (dict_keys (employees self)) ->
  _delete_employee self confirmed
  = if confirmed then
      (_clear_form (_populate_treeview (_save_employees {|
         form := form self;
         name_var := name_var self;
         employees := dict_del (employees self) emp_id;
         tree := tree self;
         selection := selection self;
         data_file := data_file self |})),
       showinfo "Success" emp_id)
    else (self, silent).
Proof.
  intros Hsel Hin. unfold _delete_employee. rewrite Hsel.
  destruct (dict_get_In _ _ Hin) as [data ->]. reflexivity.
Qed.

End ChangeFacts.

(** X7. [_update_employee] on a selected employee replaces that employee's
    record and nothing else: the ids and their order stay as they are, the
    selected id now holds the stripped name and twelve times the sum of
    the components, and every other employee keeps its record. *)
Theorem update_employee_replaces :
  forall (F : Type) (H : PyFloat F) (self : App F) (emp_id : Z) (rest : list Z),
  let name := strip (name_var self) in
  let basic_month := to_float (basic_var (form self)) in
  let hra_month := to_float (hra_var (form self)) in
  let other_allow_month := to_float (other_allow_var (form self)) in
  selection self = emp_id :: rest ->
  In emp_id (dict_keys (employees self)) ->
  name <> [] ->
  no_salary_component basic_month hra_month other_allow_month = false ->
  let after := fst (_update_employee self) in
  snd (_update_employee self) = showinfo "Success" emp_id
  /\ dict_keys (employees after) = dict_keys (employees self)
  /\ dict_get (employees after) emp_id
     = Some (Emp.Build_t name ((basic_month + hra_month + other_allow_month) * lit 12.0))
  /\ (forall k, k <> emp_id ->
                dict_get (employees after) k = dict_get (employees self) k).
Proof.
  intros F H self emp_id rest name basic_month hra_month other_allow_month
    Hsel Hin Hname Hcomp after.
  destruct (update_employee_cases self)
    as [(Hnil & _)|[(k & rest' & _ & [Hblank|Hnone] & _)|(k & rest' & Hsel' & _ & _ & Hupd)]].
  - congruence.
  - contradiction.
  - fold basic_month hra_month other_allow_month in Hnone. congruence.
  - assert (k = emp_id) by congruence. subst k.
    unfold after. rewrite Hupd. cbn [fst snd]. rewrite employees_after_change.
    fold name basic_month hra_month other_allow_month.
    split; [reflexivity|]. split; [|split].
    + apply dict_keys_set_present. exact Hin.
    + apply dict_get_set_same.
    + intros k' Hne. apply dict_get_set_other. exact Hne.
Qed.

Lemma update_employee_replaces_witness :
  let self := click (type_employee (F:=float) example_app (pystr_of "Asha K")
                       (Some 60000%float) None None) [1%Z] in
  selection self = [1%Z]
  /\ In 1%Z (dict_keys (employees self))
  /\ strip (name_var self) <> []
  /\ dict_keys (employees (fst (_update_employee self))) = [1%Z; 2%Z].
Proof.
  intros self.
  assert (Hsel : selection self = [1%Z]) by reflexivity.
  assert (Hin : In 1%Z (dict_keys (employees self))) by (left; reflexivity).
  assert (Hname : strip (name_var self) <> []) by (vm_compute; discriminate).
  destruct (update_employee_replaces float binary64 self 1%Z [] Hsel Hin Hname eq_refl)
    as (_ & Hkeys & _).
  split; [exact Hsel|]. split; [exact Hin|]. split; [exact Hname|].
  rewrite Hkeys. reflexivity.
Defined.

(** X8. [_delete_employee] on a selected employee that is there: without
    the confirmation nothing changes; with it exactly that employee is
    removed, the others keep their records and their order. *)
Theorem delete_employee_removes :
  forall (F : Type) (H : PyFloat F) (self : App F) (emp_id : Z) (rest : list Z),
  selection self = emp_id :: rest ->
  In emp_id (dict_keys (employees self)) ->
  let after := fst (_delete_employee self true) in
  _delete_employee self false = (self, silent)
  /\ snd (_delete_employee self true) = showinfo "Success" emp_id
  /\ dict_get (employees after) emp_id = None
  /\ (forall k, k <> emp_id ->
                dict_get (employees after) k = dict_get (employees self) k)
  /\ dict_keys (employees after) = List.remove Z.eq_dec emp_id (dict_keys (employees self)).
Proof.
  intros F H self emp_id rest Hsel Hin after. unfold after.
  rewrite !(delete_employee_present self emp_id rest _ Hsel Hin). cbn [fst snd].
  split; [reflexivity|]. split; [reflexivity|].
  change (employees (_clear_form (_populate_treeview (_save_employees ?s))))
    with (employees s). cbn [employees].
  split; [apply dict_get_del_same|]. split.
  - intros k Hne. apply dict_get_del_other. exact Hne.
  - apply dict_keys_del.
Qed.

Lemma delete_employee_removes_witness :
  let self := click (F:=float) example_app [1%Z] in
  selection self = [1%Z]
  /\ In 1%Z (dict_keys (employees self))
  /\ dict_keys (employees (fst (_delete_employee self true))) = [2%Z].
Proof.
  intros self.
  assert (Hsel : selection self = [1%Z]) by reflexivity.
  assert (Hin : In 1%Z (dict_keys (employees self))) by (left; reflexivity).
  destruct (delete_employee_removes float binary64 self 1%Z [] Hsel Hin)
    as (_ & _ & _ & _ & Hkeys).
  split; [exact Hsel|]. split; [exact Hin|].
  rewrite Hkeys. reflexivity.
Defined.

(** X9. Ids are issued again: when the employee that [_add_employee] has
    just added is selected and deleted, the next id [_get_next_id] issues
    is the deleted employee's id. *)
Theorem deleted_id_is_issued_again :
  forall (F : Type) (H : PyFloat F) (self added clicked : App F) (emp_id : Z)
         (rest : list Z),
  _add_employee self = (added, showinfo "Success" emp_id) ->
  employees clicked = employees added ->
  selection clicked = emp_id :: rest ->
  snd (_delete_employee clicked true) = showinfo "Success" emp_id
  /\ _get_next_id (fst (_delete_employee clicked true)) = emp_id.
Proof.
  intros F H self added clicked emp_id rest Hadd Hsame Hsel.
  destruct (add_employee_cases self) as [[_ Heq]|[(_ & _ & Heq)|(_ & _ & Heq)]];
    rewrite Heq in Hadd; try discriminate.
  injection Hadd as <- <-.
  rewrite employees_after_change in Hsame.
  rewrite dict_set_new in Hsame by apply get_next_id_unused.
  assert (Hin : In (_get_next_id self) (dict_keys (employees clicked))).
  { rewrite Hsame. unfold dict_keys. rewrite map_app. apply in_or_app. right. left. reflexivity. }
  rewrite (delete_employee_present clicked _ rest true Hsel Hin). cbn [fst snd].
  split; [reflexivity|].
  apply get_next_id_employees.
  change (employees (_clear_form (_populate_treeview (_save_employees ?s))))
    with (employees s). cbn [employees].
  rewrite Hsame. apply dict_del_appended. apply get_next_id_unused.
Qed.

Lemma deleted_id_is_issued_again_witness :
  let self := type_employee (F:=float) example_app (pystr_of "Meera")
                (Some 40000%float) None None in
  let added := fst (_add_employee self) in
  _add_employee self = (added, showinfo "Success" 3)
  /\ selection (click added [3%Z]) = [3%Z]
  /\ _get_next_id (fst (_delete_employee (click added [3%Z]) true)) = 3%Z.
Proof.
  intros self added.
  assert (Hadd : _add_employee self = (added, showinfo "Success" 3)) by reflexivity.
  assert (Hsel : selection (click added [3%Z]) = [3%Z]) by reflexivity.
  destruct (deleted_id_is_issued_again float binary64 self added (click added [3%Z]) 3%Z []
              Hadd eq_refl Hsel) as [_ Hnext].
  split; [exact Hadd|]. split; [exact Hsel|]. exact Hnext.
Defined.

Section TreeFacts.

Context {F : Type} `{PyFloat F}.

Implicit Types (self : App F) (d : dict (Emp.t F)).

(** The rows [_populate_treeview] inserts for the ids [ids]. *)
Lemma tree_rows_ids d (ids : list Z) :
  (forall k, In k ids -> In k (dict_keys d)) ->
  List.map (fun row : Z * pystr * F => fst (fst row))
    (flat_map
       (fun emp_id =>
          match dict_get d emp_id with
          | Some data => [(emp_id, Emp.name data, Emp.gross_salary data)]
          | None => []
          end) ids)
  = ids.
Proof.
  induction ids as [|k ids IH]; intros Hin; cbn [flat_map]; [reflexivity|].
  rewrite map_app, IH by (intros k' Hk'; apply Hin; right; exact Hk').
  destruct (dict_get_In d k (Hin k (or_introl eq_refl))) as [data ->].
  reflexivity.
Qed.

Lemma tree_rows_In d (ids : list Z) (k : Z) (name : pystr) (gross_salary : F) :
  In (k, name, gross_salary)
    (flat_map
       (fun emp_id =>
          match dict_get d emp_id with
          | Some data => [(emp_id, Emp.name data, Emp.gross_salary data)]
          | None => []
          end) ids)
  <-> In k ids /\ dict_get d k = Some (Emp.Build_t name gross_salary).
Proof.
  rewrite in_flat_map. split.
  - intros (k' & Hin & Hrow). destruct (dict_get d k') as [[name' gross']|] eqn:E;
      [|contradiction].
    destruct Hrow as [Hrow|[]]. injection Hrow as -> -> ->. auto.
  - intros [Hin Hget]. exists k. rewrite Hget. split; [exact Hin|]. left. reflexivity.
Qed.

Lemma populate_tree_ids self :
  tree_ids (_populate_treeview self) = sorted (dict_keys (employees self)).
Proof.
  unfold tree_ids. cbn [tree _populate_treeview]. apply tree_rows_ids.
  intros k Hin. eapply Permutation_in; [apply sorted_Permutation|exact Hin].
Qed.

(** A selected row of a current tree is an employee. *)
Lemma tree_current_selected self (emp_id : Z) (rest : list Z) :
  tree_current self -> selection self = emp_id :: rest ->
  In emp_id (dict_keys (employees self)).
Proof.
  intros [Htree Hincl] Hsel.
  assert (Hin : In emp_id (tree_ids self)).
  { apply Hincl. rewrite Hsel. left. reflexivity. }
  unfold tree_ids in Hin. rewrite Htree in Hin.
  fold (tree_ids (_populate_treeview self)) in Hin. rewrite populate_tree_ids in Hin.
  eapply Permutation_in; [apply sorted_Permutation|exact Hin].
Qed.

(** After the tree is filled again and the form cleared, the tree is
    current and nothing is selected. *)
Lemma tree_current_after_change self :
  tree_current (_clear_form (_populate_treeview (_save_employees self))).
Proof.
  split; [reflexivity|]. intros k [].
Qed.

End TreeFacts.

(** X10. [_populate_treeview] shows the employees and nothing else: one
    row per employee, in increasing order of the ids, each row with that
    employee's name and salary; no row stays selected. *)
Theorem populate_treeview_shows_employees :
  forall (F : Type) (H : PyFloat F) (self : App F),
  let shown := _populate_treeview self in
  tree_ids shown = sorted (dict_keys (employees self))
  /\ StronglySorted Z.le (tree_ids shown)
  /\ Permutation (tree_ids shown) (dict_keys (employees self))
  /\ (forall k name gross_salary,
        In (k, name, gross_salary) (tree shown)
        <-> dict_get (employees self) k = Some (Emp.Build_t name gross_salary))
  /\ selection shown = [].
Proof.
  intros F H self shown. unfold shown. rewrite populate_tree_ids.
  split; [reflexivity|]. split; [apply sorted_Sorted|].
  split; [apply sorted_Permutation|]. split; [|reflexivity].
  intros k name gross_salary. cbn [tree _populate_treeview]. rewrite tree_rows_In.
  split; [tauto|]. intros Hget. split; [|exact Hget].
  eapply Permutation_in; [symmetry; apply sorted_Permutation|].
  exact (dict_get_Some_In _ _ _ Hget).
Qed.

(** X11. As long as the tree shows the employees as they are and the
    selection is made of its rows, a selected id is never missing from the
    dict: [_delete_employee] does not raise [KeyError] and
    [_generate_payslip] does not end in its "Error" box.  The application
    starts in such a state, and [_add_employee], [_update_employee],
    [_delete_employee], [_clear_form] and a click on rows of the tree keep
    it. *)
Theorem selection_is_never_stale :
  forall (F : Type) (H : PyFloat F) (self : App F),
  tree_current self ->
  (forall confirmed k, snd (_delete_employee self confirmed) <> KeyError k)
  /\ (forall text, snd (_generate_payslip self) <> showerror "Error" text)
  /\ tree_current (fst (_add_employee self))
  /\ tree_current (fst (_update_employee self))
  /\ (forall confirmed, tree_current (fst (_delete_employee self confirmed)))
  /\ tree_current (_clear_form self)
  /\ (forall ids, incl ids (tree_ids self) -> tree_current (click self ids))
  /\ (forall file, tree_current (App_init (F:=F) file)).
Proof.
  intros F H self Hcur.
  assert (Hdel : forall confirmed,
            (forall k, snd (_delete_employee self confirmed) <> KeyError k)
            /\ tree_current (fst (_delete_employee self confirmed))).
  { intros confirmed. destruct (selection self) as [|emp_id rest] eqn:Hsel.
    - unfold _delete_employee. rewrite Hsel. cbn. split; [discriminate|exact Hcur].
    - rewrite (delete_employee_present self emp_id rest confirmed Hsel
                 (tree_current_selected self emp_id rest Hcur Hsel)).
      destruct confirmed; cbn [fst snd].
      + split; [discriminate|]. apply tree_current_after_change.
      + split; [discriminate|exact Hcur]. }
  split; [intros confirmed; apply Hdel|].
  split.
  { intros text. unfold _generate_payslip.
    destruct (selection self) as [|emp_id rest] eqn:Hsel; [discriminate|].
    destruct (dict_get_In _ _ (tree_current_selected self emp_id rest Hcur Hsel))
      as [data ->].
    discriminate. }
  split.
  { destruct (add_employee_cases self) as [[_ ->]|[(_ & _ & ->)|(_ & _ & ->)]]; cbn [fst];
      [exact Hcur|exact Hcur|].
    apply (tree_current_after_change (store_employee self _ _ _)). }
  split.
  { destruct (update_employee_cases self)
      as [(_ & -> & _)|[(k & rest & _ & _ & -> & _)|(k & rest & _ & _ & _ & ->)]];
      [exact Hcur|exact Hcur|].
    apply (tree_current_after_change (store_employee self _ _ _)). }
  split; [intros confirmed; apply Hdel|].
  destruct Hcur as [Htree Hincl].
  split.
  { split; [exact Htree|]. intros k Hin. apply Hincl.
    cbn [selection _clear_form] in Hin. destruct (selection self); [contradiction|].
    right. exact Hin. }
  split.
  { intros ids Hids. split; [exact Htree|exact Hids]. }
  intros file. split; [reflexivity|]. intros k [].
Qed.

Lemma selection_is_never_stale_witness :
  let self := click (F:=float) example_app [2%Z] in
  tree_current self
  /\ (forall k, snd (_delete_employee self true) <> KeyError k).
Proof.
  intros self.
  assert (Hcur : tree_current self).
  { split; [reflexivity|]. intros k [<-|[]]. right. left. reflexivity. }
  pose proof (selection_is_never_stale float binary64 self Hcur) as (Hdel & _).
  split; [exact Hcur|]. exact (Hdel true).
Defined.

Section FileFacts.

Context {F : Type} `{PyFloat F}.

Implicit Types (d : dict (Emp.t F)) (rows : list (csv_row F)).

(** The rows [_save_employees] gets into the file read back as the items
    they were written from. *)
Lemma load_rows_written (items : dict (Emp.t F)) :
  forall d, NoDup (dict_keys (d ++ items)) ->
  load_rows (fst (write_rows items)) d = (d ++ saved_items items, silent).
Proof.
  induction items as [|[k [name gross_salary]] items IH]; intros d Hnd;
    cbn [write_rows saved_items Emp.name Emp.gross_salary].
  - cbn. rewrite app_nil_r. reflexivity.
  - destruct (utf8_encodable name).
    + cbn [fst load_rows row_name row_gross_salary row_id].
      assert (Hnew : dict_get d k = None).
      { apply dict_get_None. unfold dict_keys in *. rewrite map_app in Hnd. cbn in Hnd.
        apply NoDup_remove_2 in Hnd. intros Hin. apply Hnd. apply in_or_app. left.
        exact Hin. }
      rewrite dict_set_new by exact Hnew.
      rewrite IH by (rewrite <- app_assoc; exact Hnd).
      rewrite <- app_assoc. reflexivity.
    + cbn. rewrite app_nil_r. reflexivity.
Qed.

(** With every name encodable every row is written and no error shown. *)
Lemma write_rows_complete (items : dict (Emp.t F)) :
  forallb (fun item => utf8_encodable (Emp.name (snd item))) items = true ->
  saved_items items = items /\ snd (write_rows items) = silent.
Proof.
  induction items as [|[k data] items IH]; cbn [forallb saved_items write_rows snd];
    [auto|].
  intros Hall. apply andb_true_iff in Hall. destruct Hall as [Hname Hall].
  rewrite Hname. destruct (IH Hall) as [-> ->]. auto.
Qed.

(** With a name that cannot be encoded the save is cut short and the
    error shown. *)
Lemma write_rows_cut (items : dict (Emp.t F)) :
  forallb (fun item => utf8_encodable (Emp.name (snd item))) items = false ->
  snd (write_rows items)
  = showerror_caught "Save Error" "Failed to save data to employees.csv"
  /\ (List.length (saved_items items) < List.length items)%nat.
Proof.
  induction items as [|[k data] items IH]; cbn [forallb saved_items write_rows snd];
    [discriminate|].
  destruct (utf8_encodable (Emp.name data)); cbn [andb snd List.length].
  - intros Hall. destruct (IH Hall) as [-> Hlen]. split; [reflexivity|lia].
  - intros _. split; [reflexivity|lia].
Qed.

(** Rows that load without an error can be loaded first. *)
Lemma load_rows_app rows (more : list (csv_row F)) :
  forall d, snd (load_rows rows d) = silent ->
  load_rows (rows ++ more) d = load_rows more (fst (load_rows rows d)).
Proof.
  induction rows as [|row rows IH]; intros d Hok; cbn in *; [reflexivity|].
  destruct (row_name row), (row_gross_salary row), (row_id row);
    try discriminate. apply IH. exact Hok.
Qed.

End FileFacts.

(** X12. What the next start finds after a save, at the level of the rows
    (the csv text is not modelled: the hypothesis [reads_back] keeps to the
    items that csv, [str()] and [int()] / [float()] hand back as they were
    written).  With each id once, [_load_employees] on the file that
    [_save_employees] leaves returns, without an error, the employees
    stored before the first name that utf-8 cannot encode, in their order.
    When every name can be encoded these are all the employees and the
    save shows nothing; when one cannot, the save shows "Save Error" and
    at least one employee is missing from the file. *)
Theorem load_after_save :
  forall (F : Type) (H : PyFloat F) (self : App F),
  NoDup (dict_keys (employees self)) ->
  forallb reads_back (employees self) = true ->
  let encodable :=
    forallb (fun item => utf8_encodable (Emp.name (snd item))) (employees self) in
  _load_employees (data_file (_save_employees self))
  = (saved_items (employees self), silent)
  /\ (encodable = true ->
      saved_items (employees self) = employees self /\ save_error self = silent)
  /\ (encodable = false ->
      save_error self = showerror_caught "Save Error" "Failed to save data to employees.csv"
      /\ (List.length (saved_items (employees self)) < List.length (employees self))%nat).
Proof.
  intros F H self Hnd _ encodable.
  split.
  { cbn [data_file _save_employees _load_employees].
    apply (load_rows_written (employees self) []). exact Hnd. }
  split; intros Hall.
  - apply write_rows_complete. exact Hall.
  - apply write_rows_cut. exact Hall.
Qed.

Lemma load_after_save_witness :
  let added := fst (_add_employee (type_employee (F:=float) example_app [56448%N]
                                     (Some 40000%float) None None)) in
  let self := fst (_add_employee (type_employee added (pystr_of "Zoya")
                                    (Some 50000%float) None None)) in
  NoDup (dict_keys (employees self))
  /\ forallb reads_back (employees self) = true
  /\ dict_keys (employees self) = [1%Z; 2%Z; 3%Z; 4%Z]
  /\ dict_keys (fst (_load_employees (data_file (_save_employees self)))) = [1%Z; 2%Z]
  /\ save_error self = showerror_caught "Save Error" "Failed to save data to employees.csv".
Proof.
  intros added self.
  assert (Hnd : NoDup (dict_keys (employees self))).
  { repeat constructor; cbn; intuition discriminate. }
  assert (Hback : forallb reads_back (employees self) = true) by (vm_compute; reflexivity).
  destruct (load_after_save float binary64 self Hnd Hback) as (Hload & _ & Hcut).
  split; [exact Hnd|]. split; [exact Hback|]. split; [reflexivity|].
  split; [rewrite Hload; reflexivity|].
  apply Hcut. reflexivity.
Defined.



(** X14. The payslip in exact arithmetic: for a selected employee with a
    finite gross salary, the tax is 20%, the national insurance 12% and
    the pension 5% of it, the deductions add up to 37% and the net salary
    is the remaining 63%; for a gross salary that is not negative the net
    salary lies between 0 and the gross salary. *)
Theorem payslip_amounts :
  forall (self : App xnum) (emp_id : Z) (rest : list Z) (name : pystr) (gross : Qc),
  selection self = emp_id :: rest ->
  dict_get (employees self) emp_id = Some (Emp.Build_t name (Fin gross)) ->
  exists slip,
    _generate_payslip self = (Some slip, silent)
    /\ Payslip.emp_id slip = emp_id /\ Payslip.name slip = name
    /\ Payslip.gross_salary slip = Fin gross
    /\ Payslip.tax slip = Fin (gross * Q2Qc 0.20)
    /\ Payslip.ni slip = Fin (gross * Q2Qc 0.12)
    /\ Payslip.pension slip = Fin (gross * Q2Qc 0.05)
    /\ Payslip.total_deductions slip = Fin (gross * Q2Qc 0.37)
    /\ Payslip.net_salary slip = Fin (gross * Q2Qc 0.63)
    /\ ((0 <= gross)%Qc ->
        (0 <= gross * Q2Qc 0.63)%Qc /\ (gross * Q2Qc 0.63 <= gross)%Qc).
Proof.
  intros self emp_id rest name gross Hsel Hget.
  unfold _generate_payslip. rewrite Hsel, Hget. eexists. split; [reflexivity|].
  cbn [Payslip.emp_id Payslip.name Payslip.gross_salary Payslip.tax Payslip.ni
       Payslip.pension Payslip.total_deductions Payslip.net_salary Emp.gross_salary
       Emp.name].
  unfold TAX_RATE, NATIONAL_INSURANCE_RATE, PENSION_RATE.
  cbn [fadd fsub fmul lit exact_num X.add X.sub X.mul X.opp].
  repeat (split; [reflexivity|]).
  split; [f_equal; qc_deep; lra|].
  split; [f_equal; qc_deep; lra|].
  intros Hgross. split; qc_deep; lra.
Qed.

Lemma payslip_amounts_witness :
  let self := click (F:=xnum) example_app [1%Z] in
  selection self = [1%Z]
  /\ dict_get (employees self) 1%Z = Some (Emp.Build_t (pystr_of "Asha") (lit 600000))
  /\ exists slip, _generate_payslip self = (Some slip, silent)
                  /\ Payslip.net_salary slip = Fin (Q2Qc 600000 * Q2Qc 0.63).
Proof.
  intros self.
  assert (Hsel : selection self = [1%Z]) by reflexivity.
  assert (Hget : dict_get (employees self) 1%Z
                 = Some (Emp.Build_t (pystr_of "Asha") (lit 600000))) by reflexivity.
  destruct (payslip_amounts self 1%Z [] _ _ Hsel Hget)
    as (slip & Hslip & _ & _ & _ & _ & _ & _ & _ & Hnet & _).
  split; [exact Hsel|]. split; [exact Hget|]. exists slip. split; assumption.
Defined.

(** ** More on the tax estimate *)

(** X15. No income, no tax: on every schedule the bracket walk of an
    income of 0 (written [0] or [0.0]) returns 0.0, on every carrier that
    satisfies the laws, binary64 floats included. *)
Theorem zero_income_zero_tax :
  forall (F : Type) (H : PyFloat F), PyFloatLaws F ->
  forall slabs : list (F * F),
  _compute_tax_from_slabs (lit 0) slabs = lit 0.0
  /\ _compute_tax_from_slabs (lit 0.0) slabs = lit 0.0.
Proof.
  intros F H L slabs. split.
  - apply slab_loop_exhausted. apply fle_zero_zero.
  - apply slab_loop_exhausted. rewrite lit_float_zero. apply fle_zero_zero.
Qed.

Lemma zero_income_zero_tax_witness :
  PyFloatLaws float
  /\ _compute_tax_from_slabs (F:=float) (lit 0) (OLD_REGIME_SLABS __init__) = lit 0.0.
Proof.
  exact (conj binary64_laws
           (proj1 (zero_income_zero_tax float binary64 binary64_laws
                     (OLD_REGIME_SLABS __init__)))).
Defined.

(** Case split on every [Qcmin] and [Qcmax] of the goal and the
    hypotheses. *)
Ltac case_minmax :=
  repeat match goal with
  | |- context [Qcmin ?a ?b] =>
      let H := fresh "Hmin" in
      destruct (Qcmin_spec a b) as [[? H]|[? H]]; rewrite H in *; clear H
  | |- context [Qcmax ?a ?b] =>
      let H := fresh "Hmax" in
      destruct (Qcmax_spec a b) as [[? H]|[? H]]; rewrite H in *; clear H
  | H0 : context [Qcmin ?a ?b] |- _ =>
      let H := fresh "Hmin" in
      destruct (Qcmin_spec a b) as [[? H]|[? H]]; rewrite H in *; clear H
  | H0 : context [Qcmax ?a ?b] |- _ =>
      let H := fresh "Hmax" in
      destruct (Qcmax_spec a b) as [[? H]|[? H]]; rewrite H in *; clear H
  end.

Section MarginalRate.

Local Open Scope Qc_scope.

Lemma rates_at_most_cons (top : Qc) (upper : xnum) (r : Qc) (rest : list (xnum * xnum)) :
  rates_at_most top ((upper, Fin r) :: rest) = true ->
  r <= top /\ rates_at_most top rest = true.
Proof.
  unfold rates_at_most. cbn [forallb snd]. rewrite andb_true_iff, leb_Fin. tauto.
Qed.

(** A part [d >= 0] of the income taxed at [r <= top] costs at most
    [top * d]. *)
Lemma rate_bound (d r top : Qc) : 0 <= d -> r <= top -> d * r <= top * d.
Proof.
  intros Hd Hr. rewrite (Qcmult_comm top d), (Qcmult_comm d r), (Qcmult_comm d top).
  apply Qcmult_le_compat_r; assumption.
Qed.

(** The part of an income above [lower] is its part between [lower] and
    [u] plus its part above [u]; the clipped part grows with the income. *)
Lemma above_lower_split (lower u x : Qc) :
  lower <= u ->
  Qcmax 0 (x - lower) = Qcmax 0 (Qcmin u x - lower) + Qcmax 0 (x - u).
Proof. intros Hlu. case_minmax; qc_deep; lra. Qed.

Lemma clipped_part_monotone (lower u a b : Qc) :
  a <= b -> 0 <= Qcmax 0 (Qcmin u b - lower) - Qcmax 0 (Qcmin u a - lower).
Proof. intros Hab. case_minmax; qc_deep; lra. Qed.

Lemma above_lower_monotone (lower a b : Qc) :
  a <= b -> 0 <= Qcmax 0 (b - lower) - Qcmax 0 (a - lower).
Proof. intros Hab. case_minmax; qc_deep; lra. Qed.

(** Between two incomes the bracket sum grows by at most the top rate
    times the part of the difference that lies above [lower]. *)
Lemma bracket_tax_marginal (top : Qc) (slabs : list (xnum * xnum)) :
  forall lower a b : Qc,
  valid_from lower slabs = true -> rates_at_most top slabs = true -> a <= b ->
  bracket_tax lower slabs b - bracket_tax lower slabs a
  <= top * (Qcmax 0 (b - lower) - Qcmax 0 (a - lower)).
Proof.
  induction slabs as [|[upper rate] rest IH]; intros lower a b Hvalid Hrates Hab.
  - discriminate.
  - apply valid_from_cons in Hvalid.
    destruct Hvalid as (r & -> & Hr & [[-> ->]|(u & -> & Hlu & _ & Hrest)]);
      apply rates_at_most_cons in Hrates; destruct Hrates as [Hrtop Hrates];
      cbn [bracket_tax].
    + pose proof (above_lower_monotone lower a b Hab) as Hd.
      pose proof (rate_bound _ _ _ Hd Hrtop) as Hbound.
      revert Hbound. generalize (Qcmax 0 (b - lower)), (Qcmax 0 (a - lower)).
      intros pb pa Hbound. qc_deep. lra.
    + specialize (IH u a b Hrest Hrates Hab).
      pose proof (clipped_part_monotone lower u a b Hab) as Hd.
      pose proof (rate_bound _ _ _ Hd Hrtop) as Hbound.
      rewrite (above_lower_split lower u b (Qclt_le_weak _ _ Hlu)),
        (above_lower_split lower u a (Qclt_le_weak _ _ Hlu)).
      revert IH Hbound.
      generalize (Qcmax 0 (Qcmin u b - lower)), (Qcmax 0 (Qcmin u a - lower)),
        (Qcmax 0 (b - u)), (Qcmax 0 (a - u)),
        (bracket_tax u rest b), (bracket_tax u rest a).
      intros pb pa mb ma tb ta IH Hbound. qc_deep. lra.
Qed.

End MarginalRate.

(** X16. The marginal rate is bounded by the top rate: on a valid schedule
    whose rates are at most [top], in exact arithmetic, the bracket tax on
    an income [b] exceeds the tax on a smaller income [a] by at most [top]
    times [b - a], and is at most [top] times [b]. *)
Theorem marginal_tax_bounded :
  forall (top : Qc) (slabs : list (xnum * xnum)) (a b : Qc),
  valid_schedule slabs = true -> rates_at_most top slabs = true ->
  (0 <= a)%Qc -> (a <= b)%Qc ->
  exists tax_a tax_b : Qc,
    _compute_tax_from_slabs (Fin a) slabs = Fin tax_a
    /\ _compute_tax_from_slabs (Fin b) slabs = Fin tax_b
    /\ (tax_b - tax_a <= top * (b - a))%Qc
    /\ (tax_b <= top * b)%Qc.
Proof.
  intros top slabs a b Hvalid Hrates Ha Hab.
  exists (bracket_tax 0 slabs a), (bracket_tax 0 slabs b).
  split; [apply compute_tax_closed_form; assumption|].
  split; [apply compute_tax_closed_form; [assumption|qc_lra]|].
  pose proof (bracket_tax_marginal top slabs 0%Qc a b Hvalid Hrates Hab) as Hab'.
  pose proof (bracket_tax_marginal top slabs 0%Qc 0%Qc b Hvalid Hrates) as H0b.
  rewrite (bracket_tax_above slabs 0%Qc 0%Qc Hvalid) in H0b by apply Qcle_refl.
  assert (H0b' := H0b ltac:(qc_lra)). clear H0b.
  replace (Qcmax 0 (b - 0)) with b in * by (case_minmax; qc_deep; lra).
  replace (Qcmax 0 (a - 0)) with a in * by (case_minmax; qc_deep; lra).
  replace (Qcmax 0 (0 - 0)) with 0%Qc in * by (case_minmax; qc_deep; lra).
  revert Hab' H0b'. generalize (bracket_tax 0 slabs a), (bracket_tax 0 slabs b).
  intros ta tb Hab' H0b'.
  split; [exact Hab'|]. qc_deep. lra.
Qed.

Lemma marginal_tax_bounded_witness :
  valid_schedule (OLD_REGIME_SLABS __init__) = true
  /\ rates_at_most (Q2Qc 0.30) (OLD_REGIME_SLABS __init__) = true
  /\ rates_at_most (Q2Qc 0.30) (NEW_REGIME_SLABS __init__) = true
  /\ (0 <= Q2Qc 400000)%Qc /\ (Q2Qc 400000 <= Q2Qc 1100000)%Qc
  /\ exists tax_a tax_b : Qc,
       _compute_tax_from_slabs (Fin (Q2Qc 400000)) (OLD_REGIME_SLABS __init__) = Fin tax_a
       /\ _compute_tax_from_slabs (Fin (Q2Qc 1100000)) (OLD_REGIME_SLABS __init__) = Fin tax_b
       /\ (tax_b - tax_a <= Q2Qc 0.30 * (Q2Qc 1100000 - Q2Qc 400000))%Qc.
Proof.
  assert (Hvalid : valid_schedule (OLD_REGIME_SLABS __init__) = true) by reflexivity.
  assert (Hrates : rates_at_most (Q2Qc 0.30) (OLD_REGIME_SLABS __init__) = true)
    by reflexivity.
  assert (Hnew : rates_at_most (Q2Qc 0.30) (NEW_REGIME_SLABS __init__) = true)
    by reflexivity.
  assert (Ha : (0 <= Q2Qc 400000)%Qc) by (apply leb_Fin; reflexivity).
  assert (Hab : (Q2Qc 400000 <= Q2Qc 1100000)%Qc) by (apply leb_Fin; reflexivity).
  destruct (marginal_tax_bounded (Q2Qc 0.30) _ _ _ Hvalid Hrates Ha Hab)
    as (tax_a & tax_b & Htax_a & Htax_b & Hmarginal & _).
  repeat (split; [assumption|]).
  exists tax_a, tax_b. repeat split; assumption.
Defined.

Lemma monthly_tds_eq {F : Type} `{PyFloat F} (self : SalaryApp F) :
  let out := fst (_calculate_tax self) in
  monthly_tds out = total_tax out / lit 12.0.
Proof.
  unfold _calculate_tax. destruct (choose_regime self (regime_var self)).
  reflexivity.
Qed.

(** With any regime but ["new"], the tax before cess is the rebate test
    at 500000 followed by the walk over the old-regime table. *)
Lemma tax_before_cess_old {F : Type} `{PyFloat F}
    (basic hra other_allow other_income std_ded sec80c sec80d : option F)
    (regime : string) :
  regime <> "new"%string ->
  let self :=
    fill_form __init__ basic hra other_allow other_income std_ded sec80c sec80d regime in
  let out := fst (_calculate_tax self) in
  tax_before_cess out
  = if taxable_income out <=? lit 500000 then lit 0.0
    else _compute_tax_from_slabs (taxable_income out) (OLD_REGIME_SLABS __init__).
Proof.
  intros Hregime self out. unfold out. rewrite tax_before_cess_eq.
  change (regime_var self) with regime.
  rewrite choose_regime_other by exact Hregime. reflexivity.
Qed.

Lemma old_regime_tax_above_limit (income : xnum) :
  (lit 500000 <? income) = true ->
  (lit 12500 <=? _compute_tax_from_slabs income (OLD_REGIME_SLABS __init__)) = true
  /\ (lit 0 <? _compute_tax_from_slabs income (OLD_REGIME_SLABS __init__)) = true.
Proof.
  destruct income as [ | | |q]; try discriminate.
  - intros _. split; reflexivity.
  - intros Hq. apply ltb_Fin in Hq.
    assert (Hmono := compute_tax_monotone (OLD_REGIME_SLABS __init__)
                       (Q2Qc 500000) q old_regime_valid).
    rewrite (compute_tax_closed_form _ q old_regime_valid) in * by qc_lra.
    assert (Hat : _compute_tax_from_slabs (Fin (Q2Qc 500000)) (OLD_REGIME_SLABS __init__)
                  = Fin (Q2Qc 12500)).
    { vm_compute. apply Fin_eq. reflexivity. }
    rewrite Hat in Hmono.
    assert (Hlow : (Q2Qc 12500 <= bracket_tax 0 (OLD_REGIME_SLABS __init__) q)%Qc).
    { apply leb_Fin. apply Hmono; qc_lra. }
    split; [apply leb_Fin; exact Hlow|].
    apply ltb_Fin. qc_lra.
Qed.

(** X17. The old regime has its cliff at 500000: with any regime but
    ["new"], a taxable income of at most 500000 gives a tax before cess of
    exactly 0, and, in exact arithmetic, any taxable income above 500000
    gives at least 12500. *)
Theorem rebate_cliff_old_regime :
  forall (basic hra other_allow other_income std_ded sec80c sec80d : option xnum)
         (regime : string),
  regime <> "new"%string ->
  let out := fst (_calculate_tax
    (fill_form __init__ basic hra other_allow other_income std_ded sec80c sec80d regime)) in
  ((taxable_income out <=? lit 500000) = true -> tax_before_cess out = lit 0.0)
  /\ ((lit 500000 <? taxable_income out) = true ->
      (lit 12500 <=? tax_before_cess out) = true
      /\ (lit 0 <? tax_before_cess out) = true).
Proof.
  intros basic hra other_allow other_income std_ded sec80c sec80d regime Hregime out.
  unfold out. rewrite (tax_before_cess_old _ _ _ _ _ _ _ _ Hregime).
  generalize (taxable_income (fst (_calculate_tax
    (fill_form __init__ basic hra other_allow other_income std_ded sec80c sec80d regime)))).
  intros income. split.
  - intros ->. reflexivity.
  - intros Hlt.
    assert (Hnot : (income <=? lit 500000) = false).
    { destruct income as [ | | |q]; try discriminate; [reflexivity|].
      apply leb_Fin_false. apply ltb_Fin in Hlt. exact Hlt. }
    rewrite Hnot. apply old_regime_tax_above_limit. exact Hlt.
Qed.

Lemma rebate_cliff_old_regime_witness :
  "old"%string <> "new"%string
  /\ (let out := fst (_calculate_tax (F:=xnum)
        (fill_form __init__ None None None (Some (lit 550001)) (Some (lit 50000))
           None None "old")) in
      (lit 500000 <? taxable_income out) = true
      /\ (lit 12500 <=? tax_before_cess out) = true).
Proof.
  assert (Hregime : "old"%string <> "new"%string) by discriminate.
  pose proof (rebate_cliff_old_regime None None None (Some (lit 550001))
                (Some (lit 50000)) None None "old" Hregime) as [_ Habove].
  split; [exact Hregime|]. cbv zeta in *.
  assert (Hlt : (lit 500000 <? taxable_income (fst (_calculate_tax (F:=xnum)
            (fill_form __init__ None None None (Some (lit 550001)) (Some (lit 50000))
               None None "old")))) = true) by reflexivity.
  split; [exact Hlt|]. exact (proj1 (Habove Hlt)).
Defined.

(** X18. When the rebate applies nothing is due: on Python's floats, for
    every form and regime, a taxable income at or below the rebate limit
    of the regime gives a tax before cess, a cess, a total tax and a
    monthly TDS of exactly 0.0. *)
Theorem rebate_leaves_nothing_due :
  forall (basic hra other_allow other_income std_ded sec80c sec80d : option float)
         (regime : string),
  let self :=
    fill_form __init__ basic hra other_allow other_income std_ded sec80c sec80d regime in
  let out := fst (_calculate_tax self) in
  (taxable_income out <=? snd (choose_regime self regime)) = true ->
  tax_before_cess out = 0%float /\ cess out = 0%float
  /\ total_tax out = 0%float /\ monthly_tds out = 0%float.
Proof.
  intros basic hra other_allow other_income std_ded sec80c sec80d regime self out Hrebate.
  assert (Htax : tax_before_cess out = 0%float).
  { unfold out. rewrite tax_before_cess_eq. change (regime_var self) with regime.
    fold out. destruct (choose_regime self regime) as [slabs limit].
    cbn [snd] in Hrebate. rewrite Hrebate. reflexivity. }
  destruct (cess_eq self) as [Hcess Htotal]. fold out in Hcess, Htotal.
  pose proof (monthly_tds_eq self) as Hmonthly. fold out in Hmonthly. cbv zeta in Hmonthly.
  rewrite Htax in Hcess.
  assert (Hcess0 : cess out = 0%float) by (rewrite Hcess; reflexivity).
  rewrite Htax, Hcess0 in Htotal.
  assert (Htotal0 : total_tax out = 0%float) by (rewrite Htotal; reflexivity).
  rewrite Htotal0 in Hmonthly.
  assert (Hmonthly0 : monthly_tds out = 0%float) by (rewrite Hmonthly; reflexivity).
  auto.
Qed.

Lemma rebate_leaves_nothing_due_witness :
  let self := fill_form (F:=float) __init__ (Some 50000%float) None None None
                (Some 50000%float) None None "new" in
  (taxable_income (fst (_calculate_tax self)) <=? snd (choose_regime self "new")) = true
  /\ total_tax (fst (_calculate_tax self)) = 0%float.
Proof.
  intros self.
  assert (Hrebate : (taxable_income (fst (_calculate_tax self))
                       <=? snd (choose_regime self "new")) = true) by reflexivity.
  pose proof (rebate_leaves_nothing_due (Some 50000%float) None None None
                (Some 50000%float) None None "new" Hrebate) as (_ & _ & Htotal & _).
  split; [exact Hrebate|exact Htotal].
Defined.

(** ** Signs and order of the amounts, in exact arithmetic *)

Section ExactAmounts.

Local Open Scope Qc_scope.

Lemma bracket_tax_nonneg (slabs : list (xnum * xnum)) (x : Qc) :
  valid_schedule slabs = true -> 0 <= x -> 0 <= bracket_tax 0 slabs x.
Proof.
  intros Hvalid Hx.
  pose proof (bracket_tax_monotone slabs 0 0 x Hvalid Hx) as Hmono.
  rewrite (bracket_tax_above slabs 0 0 Hvalid (Qcle_refl 0)) in Hmono. exact Hmono.
Qed.

(** An amount [>= 0] of the exact carrier is a rational [>= 0] or [+inf]. *)
Lemma exact_nonneg_cases (a : xnum) :
  X.leb (Fin 0) a = true -> a = XPosInf \/ exists q, a = Fin q /\ 0 <= q.
Proof.
  destruct a as [ | | |q]; try discriminate; [auto|].
  intros Hq. apply leb_Fin in Hq. eauto.
Qed.

Lemma exact_le_nonneg (a b : xnum) :
  X.leb (Fin 0) a = true -> X.leb a b = true -> X.leb (Fin 0) b = true.
Proof.
  intros Ha Hab.
  destruct a as [ | | |a]; try discriminate; destruct b as [ | | |b]; try discriminate;
    try reflexivity.
  apply leb_Fin in Ha. apply leb_Fin in Hab. apply leb_Fin. qc_lra.
Qed.

Lemma exact_le_refl (a : xnum) : X.leb (Fin 0) a = true -> X.leb a a = true.
Proof.
  destruct a; try discriminate; [reflexivity|].
  intros _. apply leb_Fin. apply Qcle_refl.
Qed.

(** The walk of an amount [>= 0] over a table of the program is an amount
    [>= 0], and it grows with the amount. *)
Lemma program_walk_monotone (slabs : list (xnum * xnum)) (a b : xnum) :
  slabs = NEW_REGIME_SLABS __init__ \/ slabs = OLD_REGIME_SLABS __init__ ->
  X.leb (Fin 0) a = true -> X.leb a b = true ->
  X.leb (Fin 0) (_compute_tax_from_slabs a slabs) = true
  /\ X.leb (_compute_tax_from_slabs a slabs) (_compute_tax_from_slabs b slabs) = true.
Proof.
  intros Htable Ha Hab.
  assert (Hvalid : valid_schedule slabs = true) by (destruct Htable as [-> | ->]; reflexivity).
  assert (Hinf : _compute_tax_from_slabs XPosInf slabs = XPosInf)
    by (destruct Htable as [-> | ->]; reflexivity).
  destruct a as [ | | |a]; try discriminate; destruct b as [ | | |b]; try discriminate.
  - rewrite Hinf. split; reflexivity.
  - apply leb_Fin in Ha. rewrite Hinf, (compute_tax_closed_form slabs a Hvalid Ha).
    split; [|reflexivity]. apply leb_Fin. apply bracket_tax_nonneg; assumption.
  - apply leb_Fin in Ha. apply leb_Fin in Hab.
    rewrite (compute_tax_closed_form slabs a Hvalid Ha).
    rewrite (compute_tax_closed_form slabs b Hvalid) by qc_lra.
    split; apply leb_Fin.
    + apply bracket_tax_nonneg; assumption.
    + apply bracket_tax_monotone; assumption.
Qed.

(** The rebate test followed by the walk keeps amounts [>= 0] and their
    order: the cliff goes upwards. *)
Lemma after_rebate_monotone (slabs : list (xnum * xnum)) (limit : Qc) (a b : xnum) :
  slabs = NEW_REGIME_SLABS __init__ \/ slabs = OLD_REGIME_SLABS __init__ ->
  X.leb (Fin 0) a = true -> X.leb a b = true ->
  let tax income :=
    if X.leb income (Fin limit) then Fin (Q2Qc 0.0)
    else _compute_tax_from_slabs income slabs in
  X.leb (Fin 0) (tax a) = true /\ X.leb (tax a) (tax b) = true.
Proof.
  intros Htable Ha Hab tax. unfold tax.
  pose proof (exact_le_nonneg a b Ha Hab) as Hb.
  destruct (program_walk_monotone slabs a b Htable Ha Hab) as [Hwa Hwab].
  destruct (program_walk_monotone slabs b b Htable Hb (exact_le_refl b Hb)) as [Hwb _].
  destruct (X.leb a (Fin limit)) eqn:Eal; destruct (X.leb b (Fin limit)) eqn:Ebl.
  - split; reflexivity.
  - split; [reflexivity|]. rewrite Q2Qc_float_zero. exact Hwb.
  - exfalso.
    destruct a as [ | | |a]; try discriminate; destruct b as [ | | |b]; try discriminate.
    apply leb_Fin in Hab. apply leb_Fin in Ebl. apply leb_Fin_false in Eal. qc_lra.
  - split; assumption.
Qed.

(** Products with a positive constant, sums and quotients by a positive
    constant keep amounts [>= 0] and their order. *)
Lemma exact_mul_monotone (a b : xnum) (k : Qc) :
  0 < k -> X.mul XPosInf (Fin k) = XPosInf ->
  X.leb (Fin 0) a = true -> X.leb a b = true ->
  X.leb (Fin 0) (X.mul a (Fin k)) = true
  /\ X.leb (X.mul a (Fin k)) (X.mul b (Fin k)) = true.
Proof.
  intros Hk Hinf Ha Hab.
  destruct a as [ | | |a]; try discriminate; destruct b as [ | | |b]; try discriminate.
  - rewrite Hinf. split; reflexivity.
  - rewrite Hinf. split; [|reflexivity]. apply leb_Fin in Ha.
    cbn [X.mul]. apply leb_Fin. qc_nra.
  - apply leb_Fin in Ha. apply leb_Fin in Hab. cbn [X.mul].
    split; apply leb_Fin; qc_nra.
Qed.

Lemma exact_add_monotone (a b a' b' : xnum) :
  X.leb (Fin 0) a = true -> X.leb a b = true ->
  X.leb (Fin 0) a' = true -> X.leb a' b' = true ->
  X.leb (Fin 0) (X.add a a') = true /\ X.leb (X.add a a') (X.add b b') = true.
Proof.
  intros Ha Hab Ha' Hab'.
  destruct a as [ | | |a]; try discriminate; destruct b as [ | | |b]; try discriminate;
    destruct a' as [ | | |a']; try discriminate;
    destruct b' as [ | | |b']; try discriminate;
    repeat match goal with
           | Hle : X.leb (Fin _) (Fin _) = true |- _ => apply leb_Fin in Hle
           end;
    cbn [X.add]; split; first [reflexivity | apply leb_Fin; qc_lra].
Qed.

Lemma exact_div_monotone (a b : xnum) (k : Qc) :
  0 < / k -> X.is_zero k = false -> X.is_neg k = false ->
  X.leb (Fin 0) a = true -> X.leb a b = true ->
  X.leb (Fin 0) (X.div a (Fin k)) = true
  /\ X.leb (X.div a (Fin k)) (X.div b (Fin k)) = true.
Proof.
  intros Hk Hzero Hneg Ha Hab.
  destruct a as [ | | |a]; try discriminate; destruct b as [ | | |b]; try discriminate;
    cbn [X.div]; rewrite ?Hzero, ?Hneg; cbn [X.signed_inf].
  - split; reflexivity.
  - split; [|reflexivity]. apply leb_Fin in Ha. apply leb_Fin. unfold Qcdiv.
    revert Hk. generalize (/ k). intros k' Hk'. qc_nra.
  - apply leb_Fin in Ha. apply leb_Fin in Hab. unfold Qcdiv.
    revert Hk. generalize (/ k). intros k' Hk'.
    split; apply leb_Fin; qc_nra.
Qed.

End ExactAmounts.

(** The four tax amounts of two forms under one regime, in exact
    arithmetic: they are [>= 0], and they follow the order of the taxable
    incomes. *)
Lemma tax_amounts_monotone
    (basic hra other_allow other_income std_ded sec80c sec80d : option xnum)
    (basic' hra' other_allow' other_income' std_ded' sec80c' sec80d' : option xnum)
    (regime : string) :
  let out := fst (_calculate_tax
    (fill_form __init__ basic hra other_allow other_income std_ded sec80c sec80d regime)) in
  let out' := fst (_calculate_tax
    (fill_form __init__ basic' hra' other_allow' other_income' std_ded' sec80c' sec80d'
       regime)) in
  (taxable_income out <=? taxable_income out') = true ->
  ((lit 0 <=? tax_before_cess out) = true
   /\ (tax_before_cess out <=? tax_before_cess out') = true)
  /\ ((lit 0 <=? cess out) = true /\ (cess out <=? cess out') = true)
  /\ ((lit 0 <=? total_tax out) = true /\ (total_tax out <=? total_tax out') = true)
  /\ ((lit 0 <=? monthly_tds out) = true
      /\ (monthly_tds out <=? monthly_tds out') = true).
Proof.
  intros out out' Hle.
  set (self := fill_form __init__ basic hra other_allow other_income std_ded sec80c sec80d
                 regime) in *.
  set (self' := fill_form __init__ basic' hra' other_allow' other_income' std_ded' sec80c'
                  sec80d' regime) in *.
  assert (Hnonneg : (lit 0 <=? taxable_income out) = true).
  { unfold out. rewrite taxable_income_eq. apply py_max_zero_nonneg. }
  destruct (cess_eq self) as [Hcess Htotal]. fold out in Hcess, Htotal.
  destruct (cess_eq self') as [Hcess' Htotal']. fold out' in Hcess', Htotal'.
  pose proof (monthly_tds_eq self) as Hmonthly. cbv zeta in Hmonthly. fold out in Hmonthly.
  pose proof (monthly_tds_eq self') as Hmonthly'. cbv zeta in Hmonthly'.
  fold out' in Hmonthly'.
  assert (Htax : (lit 0 <=? tax_before_cess out) = true
                 /\ (tax_before_cess out <=? tax_before_cess out') = true).
  { unfold out, out'. rewrite !tax_before_cess_eq. fold out out'.
    change (regime_var self) with regime. change (regime_var self') with regime.
    change (choose_regime self' regime) with (choose_regime self regime).
    unfold choose_regime. destruct (String.eqb regime "new").
    - apply (after_rebate_monotone (NEW_REGIME_SLABS __init__) (Q2Qc 700000));
        [left; reflexivity|exact Hnonneg|exact Hle].
    - apply (after_rebate_monotone (OLD_REGIME_SLABS __init__) (Q2Qc 500000));
        [right; reflexivity|exact Hnonneg|exact Hle]. }
  assert (Hc : (lit 0 <=? cess out) = true /\ (cess out <=? cess out') = true).
  { rewrite Hcess, Hcess'.
    apply (exact_mul_monotone _ _ (Q2Qc 0.04)); [apply ltb_Fin; reflexivity|reflexivity| |];
      apply Htax. }
  assert (Ht : (lit 0 <=? total_tax out) = true /\ (total_tax out <=? total_tax out') = true).
  { rewrite Htotal, Htotal'. apply exact_add_monotone; (apply Htax || apply Hc). }
  split; [exact Htax|]. split; [exact Hc|]. split; [exact Ht|].
  rewrite Hmonthly, Hmonthly'.
  apply (exact_div_monotone _ _ (Q2Qc 12.0));
    [apply ltb_Fin; reflexivity|reflexivity|reflexivity| |]; apply Ht.
Qed.

(** X19. The tax amounts are never negative: in exact arithmetic, for
    every form (negative, infinite or unreadable entries included) and
    every regime, the tax before cess, the cess, the total tax and the
    monthly TDS are all [>= 0]. *)
Theorem tax_amounts_never_negative :
  forall (basic hra other_allow other_income std_ded sec80c sec80d : option xnum)
         (regime : string),
  let out := fst (_calculate_tax
    (fill_form __init__ basic hra other_allow other_income std_ded sec80c sec80d regime)) in
  (lit 0 <=? tax_before_cess out) = true
  /\ (lit 0 <=? cess out) = true
  /\ (lit 0 <=? total_tax out) = true
  /\ (lit 0 <=? monthly_tds out) = true.
Proof.
  intros basic hra other_allow other_income std_ded sec80c sec80d regime out.
  assert (Hnonneg : (lit 0 <=? taxable_income out) = true).
  { unfold out. rewrite taxable_income_eq. apply py_max_zero_nonneg. }
  assert (Hrefl : (taxable_income out <=? taxable_income out) = true).
  { apply exact_le_refl. exact Hnonneg. }
  destruct (tax_amounts_monotone basic hra other_allow other_income std_ded sec80c sec80d
              basic hra other_allow other_income std_ded sec80c sec80d regime Hrefl)
    as ([Htax _] & [Hcess _] & [Htotal _] & [Hmonthly _]).
  auto.
Qed.

(** X20. More taxable income never means less tax, the rebate included:
    in exact arithmetic, of two forms under the same regime, the one with
    the larger taxable income has the larger (or equal) tax before cess,
    cess, total tax and monthly TDS. *)
Theorem more_income_never_less_tax :
  forall (basic hra other_allow other_income std_ded sec80c sec80d : option xnum)
         (basic' hra' other_allow' other_income' std_ded' sec80c' sec80d' : option xnum)
         (regime : string),
  let out := fst (_calculate_tax
    (fill_form __init__ basic hra other_allow other_income std_ded sec80c sec80d regime)) in
  let out' := fst (_calculate_tax
    (fill_form __init__ basic' hra' other_allow' other_income' std_ded' sec80c' sec80d'
       regime)) in
  (taxable_income out <=? taxable_income out') = true ->
  (tax_before_cess out <=? tax_before_cess out') = true
  /\ (cess out <=? cess out') = true
  /\ (total_tax out <=? total_tax out') = true
  /\ (monthly_tds out <=? monthly_tds out') = true.
Proof.
  intros basic hra other_allow other_income std_ded sec80c sec80d
    basic' hra' other_allow' other_income' std_ded' sec80c' sec80d' regime out out' Hle.
  destruct (tax_amounts_monotone basic hra other_allow other_income std_ded sec80c sec80d
              basic' hra' other_allow' other_income' std_ded' sec80c' sec80d' regime Hle)
    as ([_ Htax] & [_ Hcess] & [_ Htotal] & [_ Hmonthly]).
  auto.
Qed.

Lemma more_income_never_less_tax_witness :
  let out := fst (_calculate_tax (F:=xnum) (other_income_only (lit 750000))) in
  let out' := fst (_calculate_tax (F:=xnum) (other_income_only (lit 750001))) in
  (taxable_income out <=? taxable_income out') = true
  /\ (total_tax out <=? total_tax out') = true.
Proof.
  intros out out'.
  assert (Hle : (taxable_income out <=? taxable_income out') = true) by reflexivity.
  pose proof (more_income_never_less_tax
                (Some (lit 0)) (Some (lit 0)) (Some (lit 0)) (Some (lit 750000))
                (Some (lit 50000)) (Some (lit 0)) (Some (lit 0))
                (Some (lit 0)) (Some (lit 0)) (Some (lit 0)) (Some (lit 750001))
                (Some (lit 50000)) (Some (lit 0)) (Some (lit 0)) "new" Hle)
    as (_ & _ & Htotal & _).
  split; [exact Hle|exact Htotal].
Defined.

Lemma Qcmin_left (a b : Qc) : a <= b -> Qcmin a b = a.
Proof. intros Hle. destruct (Qcmin_spec a b) as [[Hlt _]|[_ Heq]]; [qc_lra|exact Heq]. Qed.

Lemma Qcmin_right (a b : Qc) : b <= a -> Qcmin a b = b.
Proof.
  intros Hle. destruct (Qcmin_spec a b) as [[_ Heq]|[Hle' Heq]]; [exact Heq|].
  rewrite Heq. qc_lra.
Qed.

Lemma Qcmax_left (a b : Qc) : b <= a -> Qcmax a b = a.
Proof. intros Hle. destruct (Qcmax_spec a b) as [[Hlt _]|[_ Heq]]; [qc_lra|exact Heq]. Qed.

Lemma Qcmax_right (a b : Qc) : a <= b -> Qcmax a b = b.
Proof.
  intros Hle. destruct (Qcmax_spec a b) as [[_ Heq]|[Hle' Heq]]; [exact Heq|].
  rewrite Heq. qc_lra.
Qed.

(** Settles each [Qcmin] and [Qcmax] of the goal whose side the hypotheses
    decide. *)
Ltac decide_minmax :=
  repeat match goal with
  | |- context [Qcmin ?a ?b] =>
      first [ rewrite (Qcmin_left a b) by (qc_deep; lra)
            | rewrite (Qcmin_right a b) by (qc_deep; lra) ]
  | |- context [Qcmax ?a ?b] =>
      first [ rewrite (Qcmax_left a b) by (qc_deep; lra)
            | rewrite (Qcmax_right a b) by (qc_deep; lra) ]
  end.

(** Between 700000 and 900000 the new-regime walk charges 15000 on the
    second bracket and a tenth of what lies above 600000. *)
Lemma new_regime_third_bracket (q : Qc) :
  Q2Qc 700000 < q -> q <= Q2Qc 900000 ->
  _compute_tax_from_slabs (Fin q) (NEW_REGIME_SLABS __init__)
  = Fin (Q2Qc 15000 + (q - Q2Qc 600000) * Q2Qc 0.10).
Proof.
  intros Hlow Hhigh.
  rewrite (compute_tax_closed_form _ q new_regime_valid) by qc_lra.
  f_equal. cbn [NEW_REGIME_SLABS __init__ bracket_tax lit inf exact_num].
  decide_minmax. qc_deep. lra.
Qed.

(** X21. Just past the new-regime rebate limit a higher income leaves less
    after tax: in exact arithmetic, under the new regime, a taxable income
    above 700000 and below 5103125/7 (about 729017.86) has a total tax of
    0.104 times the income minus 46800, and what is left after that tax is
    below 700000, which a taxable income of exactly 700000 keeps in full. *)
Theorem income_after_tax_dips_past_rebate_limit :
  forall (basic hra other_allow other_income std_ded sec80c sec80d : option xnum),
  let out := fst (_calculate_tax
    (fill_form __init__ basic hra other_allow other_income std_ded sec80c sec80d "new")) in
  (lit 700000 <? taxable_income out) = true ->
  (taxable_income out <? lit (5103125 # 7)) = true ->
  total_tax out = taxable_income out * lit 0.104 - lit 46800
  /\ (taxable_income out - total_tax out <? lit 700000) = true.
Proof.
  intros basic hra other_allow other_income std_ded sec80c sec80d out Hlow Hhigh.
  destruct (cess_eq (fill_form __init__ basic hra other_allow other_income std_ded sec80c
                       sec80d "new")) as [Hcess Htotal].
  fold out in Hcess, Htotal.
  pose proof (tax_before_cess_new basic hra other_allow other_income std_ded sec80c sec80d)
    as Htax.
  cbv zeta in Htax. fold out in Htax.
  rewrite Htotal, Hcess, Htax. clear Htotal Hcess Htax.
  change (CESS_RATE _) with (@lit xnum exact_num 0.04).
  destruct (taxable_income out) as [ | | |q]; try discriminate.
  rewrite exact_lit in *. apply ltb_Fin in Hlow. apply ltb_Fin in Hhigh.
  assert (Hnot : X.leb (Fin q) (Fin (Q2Qc 700000)) = false)
    by (apply leb_Fin_false; exact Hlow).
  cbn [fle exact_num]. rewrite Hnot.
  rewrite new_regime_third_bracket by (try exact Hlow; qc_deep; lra).
  cbn [lit fmul fadd fsub flt exact_num X.mul X.add X.sub X.opp].
  split.
  - f_equal. qc_deep. lra.
  - apply ltb_Fin. qc_deep. lra.
Qed.

Lemma income_after_tax_dips_past_rebate_limit_witness :
  let out := fst (_calculate_tax (F:=xnum) (other_income_only (lit 760000))) in
  (lit 700000 <? taxable_income out) = true
  /\ (taxable_income out <? lit (5103125 # 7)) = true
  /\ (taxable_income out - total_tax out <? lit 700000) = true.
Proof.
  intros out.
  assert (Hlow : (lit 700000 <? taxable_income out) = true) by reflexivity.
  assert (Hhigh : (taxable_income out <? lit (5103125 # 7)) = true) by reflexivity.
  pose proof (income_after_tax_dips_past_rebate_limit
                (Some (lit 0)) (Some (lit 0)) (Some (lit 0)) (Some (lit 760000))
                (Some (lit 50000)) (Some (lit 0)) (Some (lit 0)) Hlow Hhigh)
    as [_ Hdip].
  split; [exact Hlow|]. split; [exact Hhigh|exact Hdip].
Defined.

(** ** What Calculate shows depends on the entries alone *)

Section DrivingFacts.

Context {F : Type} `{PyFloat F} `{PyFormat F}.

(** [_calculate_tax] assigns local names only: the object it leaves is the
    object it found. *)
Lemma calculate_tax_self (self : SalaryApp F) : snd (_calculate_tax self) = self.
Proof.
  unfold _calculate_tax. destruct (choose_regime self (regime_var self)). reflexivity.
Qed.

Lemma step_Calculate (self : App F) : step self Calculate = self.
Proof. cbn [step]. rewrite calculate_tax_self. destruct self. reflexivity. Qed.

Lemma run_app (before after : list (Event F)) (self : App F) :
  run self (before ++ after) = run (run self before) after.
Proof. apply fold_left_app. Qed.

(** No handler assigns the tables, the limits or the cess rate. *)
Lemma step_configuration (self : App F) (event : Event F) :
  configuration (form (step self event)) = configuration (form self).
Proof.
  destruct event; cbn [step form]; try reflexivity.
  - unfold _on_item_select, click. cbn [selection employees].
    destruct ids as [|emp_id ids]; [reflexivity|].
    destruct (dict_get (employees self) emp_id); reflexivity.
  - destruct (add_employee_cases self) as [[_ ->]|[(_ & _ & ->)|(_ & _ & ->)]];
      reflexivity.
  - destruct (update_employee_cases self)
      as [(_ & -> & _)|[(k & rest & _ & _ & -> & _)|(k & rest & _ & _ & _ & ->)]];
      reflexivity.
  - unfold _delete_employee. destruct (selection self) as [|emp_id rest]; [reflexivity|].
    destruct (dict_get (employees self) emp_id); [|reflexivity].
    destruct confirmed; reflexivity.
  - rewrite calculate_tax_self. reflexivity.
Qed.

Lemma run_configuration (history : list (Event F)) :
  forall self : App F,
  configuration (form (run self history)) = configuration (form self).
Proof.
  unfold run. induction history as [|event history IH]; intros self; cbn [fold_left].
  - reflexivity.
  - rewrite IH. apply step_configuration.
Qed.

(** With the configuration of [__init__], the breakdown is the one of the
    fresh object with the same entries. *)
Lemma shown_by_entries (self : SalaryApp F) :
  configuration self = configuration __init__ ->
  fst (_calculate_tax self)
  = fst (_calculate_tax
           (fill_form __init__ (basic_var self) (hra_var self) (other_allow_var self)
              (other_income_var self) (std_ded_var self) (sec80c_var self)
              (sec80d_var self) (regime_var self))).
Proof.
  destruct self as [basic hra other_allow other_income std_ded sec80c sec80d regime
                      new_slabs old_slabs old_limit new_limit cess_rate].
  unfold configuration.
  cbn [NEW_REGIME_SLABS OLD_REGIME_SLABS OLD_REBATE_LIMIT NEW_REBATE_LIMIT CESS_RATE
       basic_var hra_var other_allow_var other_income_var std_ded_var sec80c_var
       sec80d_var regime_var].
  intros Hconf. injection Hconf as -> -> -> -> ->. reflexivity.
Qed.

Lemma shown_reachable (file : option (list (csv_row F))) (history : list (Event F)) :
  let self := run (App_init file) history in
  shown self
  = fst (_calculate_tax
           (fill_form __init__ (basic_var (form self)) (hra_var (form self))
              (other_allow_var (form self)) (other_income_var (form self))
              (std_ded_var (form self)) (sec80c_var (form self))
              (sec80d_var (form self)) (regime_var (form self)))).
Proof.
  intros self. unfold shown. apply shown_by_entries.
  unfold self. rewrite run_configuration. reflexivity.
Qed.

End DrivingFacts.

